(** * terraform-provider-helmfile: execution core

    A shallow embedding of the in-process and subprocess executors, the
    workspace materializer, the environment scoping helper, the EKS
    kubeconfig provisioner and the diff reconciliation step of
    [pkg/helmfile], together with the properties stated about them.

    Go strings are byte strings; they are modelled by [string], whose
    characters are 8-bit [ascii] values.  Go maps are [gmap]s, slices are
    [slice]s over lists, and [interface{}] values are the tagged union [iface]. *)

From Stdlib Require Import ZArith Ascii String.
From stdpp Require Import gmap strings list fin_maps finite vector pretty.

(** ** Go values *)

(** A value of type [interface{}].  The code only ever distinguishes the
    dynamic type [string] (by the assertion [value.(string)] and by the
    verbs [%s] and [%v]) from everything else; for a value of another
    dynamic type the constructor carries the texts that
    [fmt.Sprintf("%s", v)] and [fmt.Sprintf("%v", v)] yield. *)
Inductive iface : Type :=
  | IString (s : string)
  | IOther (verb_s verb_v : string).

#[global] Instance iface_eq_dec : EqDecision iface.
Proof. solve_decision. Defined.

(** [fmt.Sprintf("%s", v)] *)
Definition Sprintf_s (v : iface) : string :=
  match v with
  | IString s => s
  | IOther r _ => r
  end.

(** [fmt.Sprintf("%v", v)] *)
Definition Sprintf_v (v : iface) : string :=
  match v with
  | IString s => s
  | IOther _ r => r
  end.

(** [strValue, ok := value.(string)] *)
Definition assert_string (v : iface) : option string :=
  match v with
  | IString s => Some s
  | IOther _ _ => None
  end.

(** A Go slice: [nil] is kept apart from an empty slice that was made. *)
Inductive slice (A : Type) : Type :=
  | SliceNil
  | Slice (l : list A).
Arguments SliceNil {A}.
Arguments Slice {A} l.

Definition elems {A} (s : slice A) : list A :=
  match s with
  | SliceNil => []
  | Slice l => l
  end.

(** [append(s, t...)]: appending nothing to [nil] gives [nil]. *)
Definition append {A} (s t : slice A) : slice A :=
  match s, elems t with
  | SliceNil, [] => SliceNil
  | _, _ => Slice (elems s ++ elems t)
  end.

(** Go errors.  The constructors are the error sources that the package
    tells apart or creates itself. *)
Inductive error : Type :=
  | ExitError (code : Z)
      (** [*exec.ExitError]: the child ran and ended with a non-zero
          status; [ExitCode()] is [code] *)
  | AppError (msg : string) (code : Z)
      (** an error returned by the embedded helmfile application, with the
          exit status it asks for *)
  | PathError (op path : string) (notExist : bool)
      (** [*os.PathError]; [notExist] is what [os.IsNotExist] answers *)
  | Errorf (msg : string).
      (** [fmt.Errorf], [xerrors.Errorf] and every other error *)

#[global] Instance error_eq_dec : EqDecision error.
Proof. solve_decision. Defined.

Definition IsNotExist (err : error) : bool :=
  match err with
  | PathError _ _ b => b
  | _ => false
  end.

(** Characters of a Go string, for byte-wise checks. *)
Definition bytes (s : string) : list ascii := list_ascii_of_string s.

(** ** The process environment ([os.LookupEnv], [os.Setenv], [os.Unsetenv]) *)

Module os.

(** The environment table of the process: a variable is either absent or
    present with a (possibly empty) value. *)
Abbreviation environ := (gmap string string).

Definition NUL : ascii := "000"%char.

(** [syscall.Setenv] answers EINVAL for an empty key, for a key holding
    ['='] or NUL, and for a value holding NUL. *)
Definition key_ok (key : string) : bool :=
  negb (bool_decide (key = "")) &&
  forallb (λ c, negb (bool_decide (c = "="%char)) && negb (bool_decide (c = NUL)))
          (bytes key).

Definition value_ok (value : string) : bool :=
  forallb (λ c, negb (bool_decide (c = NUL))) (bytes value).

Definition LookupEnv (key : string) (e : environ) : option string := e !! key.

(** The error of [os.Setenv] is discarded at every call site of the
    package, so only the resulting table is returned: unchanged when the
    call is refused. *)
Definition Setenv (key value : string) (e : environ) : environ :=
  if key_ok key && value_ok value then <[key := value]> e else e.

Definition Unsetenv (key : string) (e : environ) : environ := delete key e.

(** Every entry of a real environment table was accepted by the system. *)
Definition environ_wf (e : environ) : Prop :=
  map_Forall (λ k v, key_ok k && value_ok v = true) e.

#[global] Instance environ_wf_dec e : Decision (environ_wf e).
Proof. unfold environ_wf. apply _. Defined.

End os.

(** ** Environment scoping: [setEnvironmentVariables] *)

Section EnvironmentScoping.

(** The order in which a [for k, v := range m] loop visits a Go map is
    unspecified; [range] is that order, and all that is known of it is
    that it visits every entry once. *)
Variable range : ∀ V : Type, gmap string V → list (string * V).
Hypothesis range_visits_all : ∀ V (m : gmap string V), range V m ≡ₚ map_to_list m.

Definition awsEnvVars : list string :=
  ["AWS_PROFILE"; "AWS_REGION"; "AWS_DEFAULT_REGION"; "AWS_ACCESS_KEY_ID";
   "AWS_SECRET_ACCESS_KEY"; "AWS_SESSION_TOKEN"; "AWS_CONFIG_FILE";
   "AWS_SHARED_CREDENTIALS_FILE"; "HOME"].

(** First loop: copy the AWS variables of the parent process that exist. *)
Definition copyParentVars (e : os.environ) : gmap string iface :=
  foldl (λ acc key,
           match os.LookupEnv key e with
           | Some val => <[key := IString val]> acc
           | None => acc
           end) ∅ awsEnvVars.

(** Second loop: overlay the explicitly configured variables. *)
Definition overlayConfigured (envVars acc : gmap string iface) : gmap string iface :=
  foldl (λ acc kv, <[kv.1 := kv.2]> acc) acc (range _ envVars).

Definition completeEnvVars (envVars : gmap string iface) (e : os.environ)
  : gmap string iface :=
  overlayConfigured envVars (copyParentVars e).

(** What the closure captures. *)
Record saved := Saved {
  originalValues : gmap string string;
  keysToUnset : list string
}.

(** One round of the third loop. *)
Definition setOne (st : saved * os.environ) (kv : string * iface)
  : saved * os.environ :=
  let '(sv, e) := st in
  let sv' :=
    match os.LookupEnv kv.1 e with
    | Some originalValue =>
        Saved (<[kv.1 := originalValue]> (originalValues sv)) (keysToUnset sv)
    | None =>
        Saved (originalValues sv) (keysToUnset sv ++ [kv.1])
    end in
  let e' :=
    match assert_string kv.2 with
    | Some strValue => os.Setenv kv.1 strValue e
    | None => e
    end in
  (sv', e').

(** The returned cleanup function. *)
Definition restoreEnv (sv : saved) (e : os.environ) : os.environ :=
  let e1 := foldl (λ e kv, os.Setenv kv.1 kv.2 e) e (range _ (originalValues sv)) in
  foldl (λ e key, os.Unsetenv key e) e1 (keysToUnset sv).

Definition setEnvironmentVariablesSaved (envVars : gmap string iface) (e : os.environ)
  : saved * os.environ :=
  foldl setOne (Saved ∅ [], e) (range _ (completeEnvVars envVars e)).

(** [setEnvironmentVariables envVars] run in environment [e]: the cleanup
    function and the environment it leaves. *)
Definition setEnvironmentVariables (envVars : gmap string iface) (e : os.environ)
  : (os.environ → os.environ) * os.environ :=
  let '(sv, e') := setEnvironmentVariablesSaved envVars e in
  (restoreEnv sv, e').

End EnvironmentScoping.

(** ** Execution strategy: options and results *)

(** [Result]: the output of one helmfile operation. *)
Record Result := mkResult {
  Output : string;
  ExitCode : Z;
  Error : option error
}.

Record BaseOptions := mkBaseOptions {
  FileOrDir : string;
  WorkingDirectory : string;
  Kubeconfig : string;
  KubeContext : string;
  Namespace : string;
  Environment : string;
  Selector : gmap string iface;
  Selectors : slice iface;
  ValuesFiles : slice iface;
  Values : slice iface;
  EnvironmentVariables : gmap string iface;
  HelmBinary : string;
  HelmfileBinary : string;
  EnableGoTemplate : bool
}.

Record ApplyOptions := mkApplyOptions {
  apply_BaseOptions : BaseOptions;
  apply_Concurrency : Z;
  apply_ReleasesValues : gmap string iface;
  apply_SkipDiffOnInstall : bool;
  apply_SuppressSecrets : bool
}.

Record DiffOptions := mkDiffOptions {
  diff_BaseOptions : BaseOptions;
  diff_Concurrency : Z;
  diff_ReleasesValues : gmap string iface;
  diff_DetailedExitcode : bool;
  diff_SuppressSecrets : bool;
  diff_Context : Z;
  diff_MaxDiffOutputLen : Z
}.

Record TemplateOptions := mkTemplateOptions {
  template_BaseOptions : BaseOptions;
  template_Concurrency : Z;
  template_IncludeCRDs : bool;
  template_OutputDir : string;
  template_OutputDirTemplate : string
}.

Record DestroyOptions := mkDestroyOptions {
  destroy_BaseOptions : BaseOptions;
  destroy_Concurrency : Z
}.

Record BuildOptions := mkBuildOptions {
  build_BaseOptions : BaseOptions;
  build_EmbedValues : bool
}.

(** The operation a call stands for. *)
Inductive operation := OpApply | OpDiff | OpTemplate | OpDestroy | OpBuild.

(** ** Subprocess variant: [BinaryExecutor] *)

(** [exec.Cmd] as far as the executor fills it in. *)
Record Cmd := mkCmd {
  cmd_Path : string;
  cmd_Args : list string;
  cmd_Dir : string;
  cmd_Env : list string
}.

Definition Itoa (n : Z) : string := pretty n.

Section BinaryExecutor.

Variable range : ∀ V : Type, gmap string V → list (string * V).

(** The collaborators of [runCommand]: the child process
    ([cmd.CombinedOutput]), the parent's environment ([os.Environ]) and
    [readEnvironmentVariables], whose body is in another file of the
    package. *)
Variable CombinedOutput : Cmd → string * option error.
Variable Environ : list string.
Variable readEnvironmentVariables : gmap string iface → string → list string.

Definition flag_if (b : bool) (args : list string) : list string :=
  if b then args else [].

Definition set_flags (m : gmap string iface) : list string :=
  flat_map (λ kv, ["--set"; kv.1 +:+ "=" +:+ Sprintf_s kv.2]) (range _ m).

Definition buildBaseArgs (opts : BaseOptions) : list string :=
  ["--no-color"]
  ++ flag_if (negb (bool_decide (FileOrDir opts = ""))) ["--file"; FileOrDir opts]
  ++ flag_if (negb (bool_decide (HelmBinary opts = ""))) ["--helm-binary"; HelmBinary opts]
  ++ flag_if (negb (bool_decide (Environment opts = ""))) ["--environment"; Environment opts]
  ++ flat_map (λ kv, ["--selector"; kv.1 +:+ "=" +:+ Sprintf_s kv.2]) (range _ (Selector opts))
  ++ flat_map (λ selector, ["--selector"; Sprintf_s selector]) (elems (Selectors opts))
  ++ flat_map (λ f, ["--state-values-file"; Sprintf_v f]) (elems (ValuesFiles opts)).

Definition runCommand (opts : BaseOptions) (args : list string)
  : Result * option error :=
  let helmfileBin :=
    if bool_decide (HelmfileBinary opts = "") then "helmfile" else HelmfileBinary opts in
  let env :=
    Environ ++ readEnvironmentVariables (EnvironmentVariables opts) "KUBECONFIG" in
  let env :=
    if bool_decide (Kubeconfig opts = "") then env
    else env ++ ["KUBECONFIG=" +:+ Kubeconfig opts] in
  let cmd := mkCmd helmfileBin args (WorkingDirectory opts) env in
  let '(output, err) := CombinedOutput cmd in
  let result := mkResult output 0 err in
  let result :=
    match err with
    | Some (ExitError code) => mkResult (Output result) code (Error result)
    | _ => result
    end in
  (result, err).

Definition BinaryExecutor_Apply (opts : ApplyOptions) : Result * option error :=
  runCommand (apply_BaseOptions opts)
    (["apply"] ++ buildBaseArgs (apply_BaseOptions opts)
     ++ flag_if (bool_decide (0 < apply_Concurrency opts)%Z)
          ["--concurrency"; Itoa (apply_Concurrency opts)]
     ++ flag_if (apply_SuppressSecrets opts) ["--suppress-secrets"]
     ++ flag_if (apply_SkipDiffOnInstall opts) ["--skip-diff-on-install"]
     ++ set_flags (apply_ReleasesValues opts)).

Definition BinaryExecutor_Diff (opts : DiffOptions) : Result * option error :=
  runCommand (diff_BaseOptions opts)
    (["diff"] ++ buildBaseArgs (diff_BaseOptions opts)
     ++ flag_if (bool_decide (0 < diff_Concurrency opts)%Z)
          ["--concurrency"; Itoa (diff_Concurrency opts)]
     ++ flag_if (diff_DetailedExitcode opts) ["--detailed-exitcode"]
     ++ flag_if (diff_SuppressSecrets opts) ["--suppress-secrets"]
     ++ flag_if (bool_decide (0 < diff_Context opts)%Z)
          ["--context"; Itoa (diff_Context opts)]
     ++ set_flags (diff_ReleasesValues opts)).

Definition BinaryExecutor_Template (opts : TemplateOptions) : Result * option error :=
  runCommand (template_BaseOptions opts)
    (["template"] ++ buildBaseArgs (template_BaseOptions opts)
     ++ flag_if (bool_decide (0 < template_Concurrency opts)%Z)
          ["--concurrency"; Itoa (template_Concurrency opts)]
     ++ flag_if (template_IncludeCRDs opts) ["--include-crds"]
     ++ flag_if (negb (bool_decide (template_OutputDir opts = "")))
          ["--output-dir"; template_OutputDir opts]
     ++ flag_if (negb (bool_decide (template_OutputDirTemplate opts = "")))
          ["--output-dir-template"; template_OutputDirTemplate opts]).

Definition BinaryExecutor_Destroy (opts : DestroyOptions) : Result * option error :=
  runCommand (destroy_BaseOptions opts)
    (["destroy"] ++ buildBaseArgs (destroy_BaseOptions opts)
     ++ flag_if (bool_decide (0 < destroy_Concurrency opts)%Z)
          ["--concurrency"; Itoa (destroy_Concurrency opts)]).

Definition BinaryExecutor_Build (opts : BuildOptions) : Result * option error :=
  runCommand (build_BaseOptions opts)
    (["build"] ++ buildBaseArgs (build_BaseOptions opts)
     ++ flag_if (build_EmbedValues opts) ["--embed-values"]).

End BinaryExecutor.

(** ** In-process variant: [LibraryExecutor] *)

(** [baseConfigProvider] (the capture logger is represented by the output
    text that the application hands back). *)
Record baseConfigProvider := mkBaseConfigProvider {
  fileOrDir : string;
  kubeContext : string;
  namespace : string;
  helmBinary : string;
  environment : string;
  selector : gmap string iface;
  selectors : slice iface;
  valuesFiles : slice iface;
  values : slice iface;
  environmentVariables : gmap string iface;
  kubeconfig : string
}.

Definition newBaseConfigProvider (opts : BaseOptions) : baseConfigProvider :=
  {| fileOrDir := FileOrDir opts;
     kubeContext := KubeContext opts;
     namespace := Namespace opts;
     helmBinary := HelmBinary opts;
     environment := Environment opts;
     selector := Selector opts;
     selectors := Selectors opts;
     valuesFiles := ValuesFiles opts;
     values := Values opts;
     environmentVariables := EnvironmentVariables opts;
     kubeconfig := Kubeconfig opts |}.

(** The per-operation option bundles handed to the application. *)
Inductive configProvider : Type :=
  | applyConfigProvider (base : baseConfigProvider) (concurrency : Z)
      (suppressSecrets skipDiffOnInstall : bool)
  | diffConfigProvider (base : baseConfigProvider) (concurrency : Z)
      (detailedExitcode suppressSecrets : bool) (context : Z)
  | templateConfigProvider (base : baseConfigProvider) (concurrency : Z)
      (includeCRDs : bool) (outputDir outputDirTemplate : string)
  | destroyConfigProvider (base : baseConfigProvider) (concurrency : Z).

Definition newline : string := String "010"%char "".

(** Masking of a sensitive value in the debug text of [Apply]. *)
Definition maskValue (val : string) : string :=
  if bool_decide (4 < String.length val) then
    String.substring 0 4 val +:+ "***"
      +:+ String.substring (String.length val - 4) 4 val
  else "***".

Definition awsVars : list string :=
  ["AWS_PROFILE"; "AWS_REGION"; "AWS_ACCESS_KEY_ID"; "AWS_SECRET_ACCESS_KEY";
   "AWS_SESSION_TOKEN"; "HOME"; "AWS_CONFIG_FILE"; "AWS_SHARED_CREDENTIALS_FILE"].

Definition debugEnvLines (e : os.environ) : string :=
  foldl (λ out key,
           match os.LookupEnv key e with
           | Some val =>
               let val :=
                 if bool_decide (key = "AWS_SECRET_ACCESS_KEY")
                    || bool_decide (key = "AWS_SESSION_TOKEN")
                 then maskValue val else val in
               out +:+ "  " +:+ key +:+ "=" +:+ val +:+ newline
           | None => out +:+ "  " +:+ key +:+ "=(not set)" +:+ newline
           end) "" awsVars.

Section LibraryExecutor.

Variable range : ∀ V : Type, gmap string V → list (string * V).

(** The embedded application: [app.New(config)] followed by the method
    of the operation.  It runs in the process environment, may change
    it, and hands back the captured output and its error. *)
Variable helmfileApp : configProvider → os.environ → (string * option error) * os.environ.

(** [fmt.Sprintf("%v", m)] for the map of configured variables. *)
Variable Sprintf_v_map : gmap string iface → string.

(** The tail shared by the four operations: package the outcome. *)
Definition packResult (output : string) (err : option error)
  : option Result * option error :=
  match err with
  | Some e => (Some (mkResult output 1 (Some e)), Some e)
  | None => (Some (mkResult output 0 None), None)
  end.

Definition LibraryExecutor_Apply (opts : ApplyOptions) (e0 : os.environ)
  : (option Result * option error) * os.environ :=
  let base := apply_BaseOptions opts in
  let debugOutput :=
    "=== PROVIDER DEBUG INFO ===" +:+ newline
    +:+ "AWS Environment BEFORE setting:" +:+ newline
    +:+ debugEnvLines e0
    +:+ "Environment variables from config: "
    +:+ Sprintf_v_map (EnvironmentVariables base) +:+ newline in
  let '(restoreEnv, e1) :=
    setEnvironmentVariables range (EnvironmentVariables base) e0 in
  let debugOutput :=
    debugOutput +:+ newline +:+ "AWS Environment AFTER setting:" +:+ newline
    +:+ debugEnvLines e1
    +:+ "=== END PROVIDER DEBUG INFO ===" +:+ newline +:+ newline in
  let config :=
    applyConfigProvider (newBaseConfigProvider base) (apply_Concurrency opts)
      (apply_SuppressSecrets opts) (apply_SkipDiffOnInstall opts) in
  let '((captured, err), e2) := helmfileApp config e1 in
  let output := debugOutput +:+ captured in
  (packResult output err, restoreEnv e2).

Definition LibraryExecutor_Diff (opts : DiffOptions) (e0 : os.environ)
  : (option Result * option error) * os.environ :=
  let base := diff_BaseOptions opts in
  let '(restoreEnv, e1) :=
    setEnvironmentVariables range (EnvironmentVariables base) e0 in
  let config :=
    diffConfigProvider (newBaseConfigProvider base) (diff_Concurrency opts)
      (diff_DetailedExitcode opts) (diff_SuppressSecrets opts) (diff_Context opts) in
  let '((output, err), e2) := helmfileApp config e1 in
  (packResult output err, restoreEnv e2).

Definition LibraryExecutor_Template (opts : TemplateOptions) (e0 : os.environ)
  : (option Result * option error) * os.environ :=
  let base := template_BaseOptions opts in
  let '(restoreEnv, e1) :=
    setEnvironmentVariables range (EnvironmentVariables base) e0 in
  let config :=
    templateConfigProvider (newBaseConfigProvider base) (template_Concurrency opts)
      (template_IncludeCRDs opts) (template_OutputDir opts)
      (template_OutputDirTemplate opts) in
  let '((output, err), e2) := helmfileApp config e1 in
  (packResult output err, restoreEnv e2).

Definition LibraryExecutor_Destroy (opts : DestroyOptions) (e0 : os.environ)
  : (option Result * option error) * os.environ :=
  let base := destroy_BaseOptions opts in
  let '(restoreEnv, e1) :=
    setEnvironmentVariables range (EnvironmentVariables base) e0 in
  let config :=
    destroyConfigProvider (newBaseConfigProvider base) (destroy_Concurrency opts) in
  let '((output, err), e2) := helmfileApp config e1 in
  (packResult output err, restoreEnv e2).

Definition LibraryExecutor_Build (opts : BuildOptions)
  : option Result * option error :=
  (None, Some (Errorf "Build operation not yet implemented for library executor")).

Definition LibraryExecutor_Version : string * option error :=
  ("library-mode", None).

End LibraryExecutor.

(** ** Credential provisioner: kubeconfig generation and cleanup *)

(** Schema keys of [schema.go]. *)
Definition KeyAWSRegion : string := "aws_region".
Definition KeyAWSProfile : string := "aws_profile".
Definition KeyAWSAssumeRole : string := "aws_assume_role".
Definition KeyEKSClusterName : string := "eks_cluster_name".
Definition KeyEKSClusterRegion : string := "eks_cluster_region".
Definition KeyEKSClusterEndpoint : string := "eks_cluster_endpoint".
Definition KeyEKSClusterCA : string := "eks_cluster_ca".

(** Modelled from the spec: the declaration of [KeyKubeconfig] is not
    among the sources; its value is the attribute name that the
    validation message of the test table quotes. *)
Definition KeyKubeconfig : string := "kubeconfig".

Record EKSClusterConfig := mkEKSClusterConfig {
  ClusterName : string;
  Region : string;
  Endpoint : string;
  CA : string;
  AWSProfile : string
}.

Record ClusterDetail := mkClusterDetail {
  Server : string;
  CertificateAuthorityData : string
}.

Record ClusterEntry := mkClusterEntry {
  cluster_Name : string;
  Cluster : ClusterDetail
}.

Record ContextDetail := mkContextDetail {
  context_Cluster : string;
  context_User : string
}.

Record ContextEntry := mkContextEntry {
  context_Name : string;
  Context : ContextDetail
}.

Record ExecEnvVar := mkExecEnvVar {
  env_Name : string;
  env_Value : string
}.

Record ExecConfig := mkExecConfig {
  exec_APIVersion : string;
  Command : string;
  Args : list string;
  Env : list ExecEnvVar
}.

Record UserDetail := mkUserDetail {
  Exec : ExecConfig
}.

Record UserEntry := mkUserEntry {
  user_Name : string;
  User : UserDetail
}.

Record KubeconfigData := mkKubeconfigData {
  APIVersion : string;
  Kind : string;
  Clusters : list ClusterEntry;
  Contexts : list ContextEntry;
  CurrentContext : string;
  Users : list UserEntry
}.

(** The schema reader [api.Getter], read the way the package's mock reads
    it: an attribute that was never set reads as the empty string. *)
Abbreviation Getter := (gmap string string).

Definition Get (d : Getter) (key : string) : string := default "" (d !! key).

(** [getEKSRegion] prefers [eks_cluster_region] over [aws_region]. *)
Definition getEKSRegion (d : Getter) : string :=
  let region := Get d KeyEKSClusterRegion in
  if bool_decide (region ≠ "") then region else Get d KeyAWSRegion.

(** The structure built by [generateKubeconfigYAML] before marshalling:
    exec args, exec env vars and the document around them. *)
Definition execArgs (config : EKSClusterConfig) : list string :=
  let args := ["eks"; "get-token"; "--cluster-name"; ClusterName config] in
  if bool_decide (Region config ≠ "") then args ++ ["--region"; Region config]
  else args.

Definition execEnvVars (config : EKSClusterConfig) : list ExecEnvVar :=
  let envVars := [] in
  if bool_decide (AWSProfile config ≠ "")
  then envVars ++ [mkExecEnvVar "AWS_PROFILE" (AWSProfile config)]
  else envVars.

Definition buildKubeconfig (config : EKSClusterConfig) : KubeconfigData :=
  {| APIVersion := "v1";
     Kind := "Config";
     Clusters :=
       [ {| cluster_Name := ClusterName config;
            Cluster := {| Server := Endpoint config;
                          CertificateAuthorityData := CA config |} |} ];
     Contexts :=
       [ {| context_Name := ClusterName config;
            Context := {| context_Cluster := ClusterName config;
                          context_User := ClusterName config |} |} ];
     CurrentContext := ClusterName config;
     Users :=
       [ {| user_Name := ClusterName config;
            User := {| Exec :=
              {| exec_APIVersion := "client.authentication.k8s.io/v1beta1";
                 Command := "aws";
                 Args := execArgs config;
                 Env := execEnvVars config |} |} |} ] |}.

Section CredentialProvisioner.

(** Collaborators: the YAML marshaller, the text of an error
    ([err.Error()]), and the file system with [os.Remove]. *)
Variable yaml_Marshal : KubeconfigData → string + error.
Variable Error_text : error → string.
Variable fsys : Type.
Variable Remove : string → fsys → option error * fsys.

(** [logf] appends a line to the log; functions that log return their
    lines. *)
Definition generateKubeconfigYAML (config : EKSClusterConfig)
  : (string * option error) * list string :=
  let log := ["Generating kubeconfig YAML for cluster: " +:+ ClusterName config] in
  match yaml_Marshal (buildKubeconfig config) with
  | inr err =>
      (("", Some (Errorf ("marshaling kubeconfig to YAML: " +:+ Error_text err))), log)
  | inl yamlBytes =>
      ((yamlBytes, None),
       log ++ ["Successfully generated kubeconfig YAML ("
               +:+ Itoa (Z.of_nat (String.length yamlBytes)) +:+ " bytes)"])
  end.

(** [cleanupKubeconfig]: the returned error, the file system left, and
    the lines logged. *)
Definition cleanupKubeconfig (path : string) (w : fsys)
  : option error * fsys * list string :=
  if bool_decide (path = "") then (None, w, [])
  else
    let '(err, w') := Remove path w in
    match err with
    | Some e =>
        if negb (IsNotExist e) then
          (Some e, w',
           ["Warning: failed to cleanup kubeconfig at " +:+ path +:+ ": " +:+ Error_text e])
        else (None, w', ["Cleaned up temporary kubeconfig at: " +:+ path])
    | None => (None, w', ["Cleaned up temporary kubeconfig at: " +:+ path])
    end.

End CredentialProvisioner.

(** [strings.Contains] *)
Fixpoint Contains (s substr : string) : bool :=
  String.prefix substr s ||
  match s with
  | EmptyString => false
  | String _ s' => Contains s' substr
  end.

(** Modelled from the spec: the body of [validateEKSConfiguration] is not
    among the sources; only its test table and two drafts in the design
    notes are ([validateKubeconfigOrEKS] and an earlier
    [validateEKSConfiguration]).  The checks are the preconditions of the
    credential provisioner as the specification words them: one of
    explicit path and cluster reference must be given, a cluster
    reference needs a region that resolves, and a manual endpoint and CA
    go together.  The one departure is the one the test table forces (row
    "Both kubeconfig and EKS cluster (kubeconfig takes precedence)"): an
    explicit path excuses the missing region, and nothing else.  The
    order of the checks and the messages are those of the drafts, and the
    messages contain the fragments the test table expects. *)
Definition validateEKSConfiguration (d : Getter) : option error :=
  let kubeconfig := Get d KeyKubeconfig in
  let eksClusterName := Get d KeyEKSClusterName in
  let eksEndpoint := Get d KeyEKSClusterEndpoint in
  let eksCA := Get d KeyEKSClusterCA in
  if bool_decide (kubeconfig = "" ∧ eksClusterName = "") then
    Some (Errorf "either 'kubeconfig' or 'eks_cluster_name' must be provided")
  else if bool_decide (eksClusterName ≠ "" ∧ kubeconfig = "" ∧ getEKSRegion d = "") then
    Some (Errorf "when eks_cluster_name is set, either eks_cluster_region or aws_region must be provided")
  else if bool_decide ((eksEndpoint ≠ "" ∧ eksCA = "") ∨ (eksEndpoint = "" ∧ eksCA ≠ "")) then
    Some (Errorf "eks_cluster_endpoint and eks_cluster_ca must be provided together or both omitted for auto-discovery")
  else None.

(** The two drafts of the design notes
    ([docs/eks-kubeconfig-implementation-plan.md]), as they are written
    there: [validateKubeconfigOrEKS], and the earlier
    [validateEKSConfiguration], which does not look at the explicit path. *)
Definition validateKubeconfigOrEKS_draft (d : Getter) : option error :=
  let kubeconfig := Get d KeyKubeconfig in
  let eksClusterName := Get d KeyEKSClusterName in
  if bool_decide (kubeconfig = "" ∧ eksClusterName = "") then
    Some (Errorf "either 'kubeconfig' or 'eks_cluster_name' must be provided")
  else None.

Definition validateEKSConfiguration_draft (d : Getter) : option error :=
  let eksClusterName := Get d KeyEKSClusterName in
  let eksClusterRegion := Get d KeyEKSClusterRegion in
  let awsRegion := Get d KeyAWSRegion in
  let eksEndpoint := Get d KeyEKSClusterEndpoint in
  let eksCA := Get d KeyEKSClusterCA in
  if bool_decide (eksClusterName = "") then None
  else if bool_decide (eksClusterRegion = "" ∧ awsRegion = "") then
    Some (Errorf "when eks_cluster_name is set, either eks_cluster_region or aws_region must be provided")
  else if bool_decide ((eksEndpoint ≠ "" ∧ eksCA = "") ∨ (eksEndpoint = "" ∧ eksCA ≠ "")) then
    Some (Errorf "eks_cluster_endpoint and eks_cluster_ca must be provided together or both omitted for auto-discovery")
  else None.

(** ** Diff reconciliation: [markDiffOutputs] *)

(** Modelled from the spec: the declarations of [KeyDiffOutput] and
    [KeyApplyOutput] are not among the sources; the values are the
    attribute names that the messages of the unit tests use. *)
Definition KeyDiffOutput : string := "diff_output".
Definition KeyApplyOutput : string := "apply_output".

(** The [diffChecker] interface, with the two methods that the mock of the
    unit tests implements. *)
Class diffChecker (D : Type) := {
  HasChange : D → string → bool;
  SetNewComputed : D → string → D * option error
}.

(** [mockDiffChecker], the implementation of the unit tests. *)
Record mockDiffChecker := mkMock {
  changes : gmap string bool;
  newComputed : gmap string bool
}.

Definition newMockDiffChecker (changedKeys : list string) : mockDiffChecker :=
  {| changes := foldl (λ m k, <[k := true]> m) ∅ changedKeys;
     newComputed := ∅ |}.

#[global] Instance mockDiffChecker_diffChecker : diffChecker mockDiffChecker := {
  HasChange m key := default false (changes m !! key);
  SetNewComputed m key :=
    ({| changes := changes m; newComputed := <[key := true]> (newComputed m) |}, None)
}.

(** Modelled from the spec: the body of [markDiffOutputs] is not among the
    sources, only its unit tests are.  Given which tracked input fields
    changed and whether diff text is present it marks [diff_output] and
    [apply_output] as needing recomputation: both when any tracked input
    changed, only [apply_output] when no tracked input changed and the
    diff text is non-empty, none otherwise. *)
Definition markDiffOutputs `{diffChecker D} (d : D) (diff : string)
    (inputKeys : list string) : D :=
  let inputsChanged := existsb (HasChange d) inputKeys in
  if inputsChanged then
    let d := (SetNewComputed d KeyDiffOutput).1 in
    (SetNewComputed d KeyApplyOutput).1
  else if bool_decide (diff ≠ "") then
    (SetNewComputed d KeyApplyOutput).1
  else d.

(** ** Paths and digests used by the workspace materializer *)

(** [fmt.Sprintf("%x", bs)] for a byte slice: two lower-case hexadecimal
    digits per byte. *)
Definition hexDigit (n : N) : ascii :=
  match n with
  | 0 => "0" | 1 => "1" | 2 => "2" | 3 => "3" | 4 => "4" | 5 => "5" | 6 => "6"
  | 7 => "7" | 8 => "8" | 9 => "9" | 10 => "a" | 11 => "b" | 12 => "c"
  | 13 => "d" | 14 => "e" | _ => "f"
  end%N%char.

Definition hexByte (c : ascii) : string :=
  let n := N_of_ascii c in
  String (hexDigit (n / 16)) (String (hexDigit (n mod 16)) "").

Definition hex (bs : list ascii) : string :=
  foldr (λ c s, hexByte c +:+ s) "" bs.

(** A SHA-256 digest: 32 bytes. *)
Abbreviation digest := (vec ascii 32).

Module filepath.

Definition Separator : ascii := "/"%char.

(** The elements of a path: the pieces between separators. *)
Fixpoint split (path : string) : list string :=
  match path with
  | EmptyString => [""]
  | String c rest =>
      if bool_decide (c = Separator) then "" :: split rest
      else match split rest with
           | elem :: elems => String c elem :: elems
           | [] => [String c ""]
           end
  end.

(** [IsAbs]: the path begins with a separator. *)
Definition IsAbs (path : string) : bool :=
  match path with
  | String c _ => bool_decide (c = Separator)
  | EmptyString => false
  end.

(** One element of the scan of [Clean].  [out] holds the elements kept
    so far, the last one first.  An empty element and [.] are dropped;
    [..] removes the last kept element when there is one to backtrack
    over, is kept at the front of a path that is not rooted, and is
    dropped at the root. *)
Definition cleanStep (rooted : bool) (out : list string) (elem : string)
  : list string :=
  if bool_decide (elem = "") then out
  else if bool_decide (elem = ".") then out
  else if bool_decide (elem = "..") then
    match out with
    | last :: before =>
        if bool_decide (last = "..") && negb rooted then ".." :: out else before
    | [] => if rooted then [] else [".."]
    end
  else elem :: out.

Definition joinElems (out : list string) : string :=
  String.concat "/" (rev out).

(** [filepath.Clean] on a system whose separator is the slash. *)
Definition Clean (path : string) : string :=
  if bool_decide (path = "") then "."
  else
    let rooted := IsAbs path in
    let out := foldl (cleanStep rooted) [] (split path) in
    if rooted then "/" +:+ joinElems out
    else if bool_decide (out = []) then "." else joinElems out.

(** [filepath.Join] of two elements. *)
Definition Join (a b : string) : string :=
  if bool_decide (a ≠ "") then Clean (a +:+ "/" +:+ b)
  else if bool_decide (b ≠ "") then Clean b
  else "".

(** [filepath.Abs], given what [os.Getwd] answers. *)
Definition Abs (getwd : string + error) (path : string) : string * option error :=
  if IsAbs path then (Clean path, None)
  else match getwd with
       | inl wd => (Join wd path, None)
       | inr err => ("", Some err)
       end.

End filepath.

(** ** Workspace materializer: [prepareHelmfileFile] *)

(** Modelled from the spec: the declaration of [ReleaseSet] is not among
    the sources; the record has the fields that the sources read or
    write, with the types they are used at. *)
Record ReleaseSet := mkReleaseSet {
  rs_Bin : string;
  rs_Values : slice iface;
  rs_ValuesFiles : slice iface;
  rs_HelmBin : string;
  rs_Content : string;
  rs_EnableGoTemplate : bool;
  rs_Kubeconfig : string;
  rs_GeneratedKubeconfig : string;
  rs_WorkingDirectory : string;
  rs_Selector : gmap string iface;
  rs_Selectors : slice iface;
  rs_EnvironmentVariables : gmap string iface;
  rs_Environment : string;
  rs_Concurrency : Z;
  rs_ReleasesValues : gmap string iface;
  rs_DryRun : bool;
  rs_TmpHelmFilePath : string
}.

Section Workspace.

(** Collaborators: the hash ([sha256.New], [Write], [Sum(nil)]), the
    system with its file operations, and what [os.Getwd] answers (the
    calls made here do not change the current directory). *)
Variable sha256_Sum : string → digest.
Variable world : Type.
Variable MkdirAll : string → N → world → option error * world.
Variable WriteFile : string → string → N → world → option error * world.
Variable Getwd : string + error.
Variable Error_text : error → string.
(** The verb [%q]: a string as a quoted Go literal. *)
Variable Sprintf_q : string → string.

Definition extensionFor (enableGoTemplate : bool) : string :=
  if enableGoTemplate then ".yaml.gotmpl" else ".yaml".

(** [tmpFile]: the manifest's file name. *)
Definition manifestFileName (content : string) (enableGoTemplate : bool) : string :=
  "helmfile-" +:+ hex (vec_to_list (sha256_Sum content))
    +:+ extensionFor enableGoTemplate.

(** The file name of a value overlay. *)
Definition valuesFileName (js : string) : string :=
  "temp.values-" +:+ hex (vec_to_list (sha256_Sum js)) +:+ ".yaml".

(** The loop over [fs.Values]: the error it stops with, or the paths
    appended to [tempValuesPaths]. *)
Fixpoint writeValuesFiles (workingDirectory : string) (vs : list iface)
    (tempValuesPaths : list iface) (w : world)
  : (error + list iface) * world :=
  match vs with
  | [] => (inr tempValuesPaths, w)
  | v :: vs' =>
      let js := Sprintf_s v in
      let relpath := filepath.Join workingDirectory (valuesFileName js) in
      let '(abspath, err) := filepath.Abs Getwd relpath in
      match err with
      | Some e =>
          (inl (Errorf ("getting absolute path to " +:+ abspath +:+ ": "
                        +:+ Error_text e)), w)
      | None =>
          let '(err, w1) := WriteFile abspath js 448 w in
          match err with
          | Some e => (inl e, w1)
          | None =>
              writeValuesFiles workingDirectory vs'
                (tempValuesPaths ++ [IString abspath]) w1
          end
      end
  end.

Definition withValues (fs : ReleaseSet) (vals valsFiles : slice iface) : ReleaseSet :=
  {| rs_Bin := rs_Bin fs;
     rs_Values := vals;
     rs_ValuesFiles := valsFiles;
     rs_HelmBin := rs_HelmBin fs;
     rs_Content := rs_Content fs;
     rs_EnableGoTemplate := rs_EnableGoTemplate fs;
     rs_Kubeconfig := rs_Kubeconfig fs;
     rs_GeneratedKubeconfig := rs_GeneratedKubeconfig fs;
     rs_WorkingDirectory := rs_WorkingDirectory fs;
     rs_Selector := rs_Selector fs;
     rs_Selectors := rs_Selectors fs;
     rs_EnvironmentVariables := rs_EnvironmentVariables fs;
     rs_Environment := rs_Environment fs;
     rs_Concurrency := rs_Concurrency fs;
     rs_ReleasesValues := rs_ReleasesValues fs;
     rs_DryRun := rs_DryRun fs;
     rs_TmpHelmFilePath := rs_TmpHelmFilePath fs |}.

(** [prepareHelmfileFile fs]: the returned path and error, the spec as
    the call leaves it (it is passed by pointer), and the system. *)
Definition prepareHelmfileFile (fs : ReleaseSet) (w : world)
  : (string * option error) * ReleaseSet * world :=
  let '(mkerr, w1) :=
    if bool_decide (rs_WorkingDirectory fs ≠ "")
    then MkdirAll (rs_WorkingDirectory fs) 493 w
    else (None, w) in
  match mkerr with
  | Some e =>
      (("", Some (Errorf ("creating working directory "
                          +:+ Sprintf_q (rs_WorkingDirectory fs) +:+ ": "
                          +:+ Error_text e))),
       fs, w1)
  | None =>
      let bs := rs_Content fs in
      let tmpFile := manifestFileName bs (rs_EnableGoTemplate fs) in
      let tmpFilePath := filepath.Join (rs_WorkingDirectory fs) tmpFile in
      let '(err, w2) := WriteFile tmpFilePath bs 448 w1 in
      match err with
      | Some e => (("", Some e), fs, w2)
      | None =>
          match writeValuesFiles (rs_WorkingDirectory fs) (elems (rs_Values fs)) [] w2 with
          | (inl e, w3) => (("", Some e), fs, w3)
          | (inr tempValuesPaths, w3) =>
              let valuesFiles :=
                if bool_decide (0 < length tempValuesPaths)
                then append (Slice tempValuesPaths) (rs_ValuesFiles fs)
                else rs_ValuesFiles fs in
              ((tmpFilePath, None), withValues fs SliceNil valuesFiles, w3)
          end
      end
  end.

End Workspace.

(** ** A small file system, for closed examples

    Files by path, and a set of paths on which every change is refused
    (a read-only place). *)
Record simpleFS := mkSimpleFS {
  sfs_files : gmap string string;
  sfs_locked : gset string
}.

Definition simple_Remove (path : string) (w : simpleFS) : option error * simpleFS :=
  match sfs_files w !! path with
  | None => (Some (PathError "remove" path true), w)
  | Some _ =>
      if bool_decide (path ∈ sfs_locked w) then (Some (PathError "remove" path false), w)
      else (None, mkSimpleFS (delete path (sfs_files w)) (sfs_locked w))
  end.

Definition simple_WriteFile (path data : string) (perm : N) (w : simpleFS)
  : option error * simpleFS :=
  if bool_decide (path ∈ sfs_locked w) then (Some (PathError "open" path false), w)
  else (None, mkSimpleFS (<[path := data]> (sfs_files w)) (sfs_locked w)).

Definition simple_MkdirAll (path : string) (perm : N) (w : simpleFS)
  : option error * simpleFS :=
  if bool_decide (path ∈ sfs_locked w) then (Some (PathError "mkdir" path false), w)
  else (None, w).

Definition simple_Error_text (err : error) : string :=
  match err with
  | ExitError _ => "exit status"
  | AppError msg _ => msg
  | PathError op path _ => op +:+ " " +:+ path
  | Errorf msg => msg
  end.

(** * Properties *)

(** ** Environment scoping *)

Section EnvironmentScopingFacts.

Variable range : ∀ V : Type, gmap string V → list (string * V).
Hypothesis range_visits_all : ∀ V (m : gmap string V), range V m ≡ₚ map_to_list m.

Lemma range_NoDup_keys V (m : gmap string V) : NoDup (range V m).*1.
Proof.
  rewrite (range_visits_all V m). apply NoDup_fst_map_to_list.
Qed.

Lemma range_elem V (m : gmap string V) k v : (k, v) ∈ range V m ↔ m !! k = Some v.
Proof.
  rewrite (range_visits_all V m). apply elem_of_map_to_list.
Qed.

Lemma range_keys V (m : gmap string V) k : k ∈ (range V m).*1 ↔ is_Some (m !! k).
Proof.
  rewrite list_elem_of_fmap. split.
  - intros [[k' v] [-> Hin]]. apply range_elem in Hin. by exists v.
  - intros [v Hv]. exists (k, v). split; [done | by apply range_elem].
Qed.

Lemma Setenv_lookup key value e k :
  os.Setenv key value e !! k =
    if decide (key = k) then
      (if os.key_ok key && os.value_ok value then Some value else e !! k)
    else e !! k.
Proof.
  unfold os.Setenv. destruct (os.key_ok key && os.value_ok value).
  - rewrite lookup_insert. by repeat case_decide.
  - by case_decide.
Qed.

Lemma Setenv_same key value e :
  e !! key = Some value → os.Setenv key value e = e.
Proof.
  intros H. unfold os.Setenv. destruct (_ && _); [by apply insert_id | done].
Qed.

(** Overlaying entries with distinct keys, in any order. *)
Lemma foldl_insert_lookup {V} (l : list (string * V)) (acc : gmap string V) k :
  NoDup l.*1 →
  foldl (λ acc kv, <[kv.1 := kv.2]> acc) acc l !! k =
    match (list_to_map l : gmap string V) !! k with
    | Some v => Some v
    | None => acc !! k
    end.
Proof.
  revert acc. induction l as [|[k1 v1] l IH]; intros acc Hnd; simpl.
  - by rewrite lookup_empty.
  - apply NoDup_cons in Hnd as [Hk1 Hnd]. rewrite IH by done.
    destruct (decide (k1 = k)) as [->|Hne].
    + rewrite lookup_insert_eq.
      rewrite (not_elem_of_list_to_map_1 l k) by done.
      by rewrite lookup_insert_eq.
    + rewrite !lookup_insert_ne by done. done.
Qed.

Lemma copyParentVars_lookup e k :
  copyParentVars e !! k =
    if decide (k ∈ awsEnvVars) then IString <$> e !! k else None.
Proof.
  unfold copyParentVars.
  assert (∀ keys (acc : gmap string iface),
    foldl (λ acc key, match os.LookupEnv key e with
                      | Some val => <[key := IString val]> acc
                      | None => acc end) acc keys !! k =
    if decide (k ∈ keys) then
      match e !! k with Some v => Some (IString v) | None => acc !! k end
    else acc !! k) as Hgen.
  { induction keys as [|key keys IH]; intros acc; cbn [foldl].
    - case_decide as H; [by apply elem_of_nil in H | done].
    - rewrite IH. unfold os.LookupEnv.
      destruct (decide (k = key)) as [->|Hne].
      + rewrite (decide_True (P := key ∈ key :: keys)) by apply list_elem_of_here.
        destruct (e !! key) as [v|] eqn:He.
        * case_decide; [done | by rewrite lookup_insert_eq].
        * by case_decide.
      + destruct (decide (k ∈ keys)) as [Hin|Hnin].
        * rewrite (decide_True (P := k ∈ key :: keys)) by by apply list_elem_of_further.
          destruct (e !! k); [done|].
          destruct (e !! key); [by rewrite lookup_insert_ne | done].
        * rewrite (decide_False (P := k ∈ key :: keys)).
          2:{ intros [?|?]%elem_of_cons; done. }
          destruct (e !! key); [by rewrite lookup_insert_ne | done]. }
  rewrite Hgen. case_decide; [|done].
  rewrite lookup_empty. by destruct (e !! k).
Qed.

Lemma completeEnvVars_lookup envVars e k :
  completeEnvVars range envVars e !! k =
    match envVars !! k with
    | Some v => Some v
    | None => if decide (k ∈ awsEnvVars) then IString <$> e !! k else None
    end.
Proof.
  unfold completeEnvVars, overlayConfigured.
  rewrite foldl_insert_lookup by apply range_NoDup_keys.
  destruct (envVars !! k) as [v|] eqn:Hk.
  - apply range_elem in Hk.
    apply (elem_of_list_to_map_1 (M := gmap string)) in Hk; [by rewrite Hk | apply range_NoDup_keys].
  - rewrite (not_elem_of_list_to_map_1 (range iface envVars) k).
    + apply copyParentVars_lookup.
    + rewrite range_keys, Hk. by intros [? ?].
Qed.

(** The third loop, over any list of entries with distinct keys. *)
Lemma setOne_loop (l : list (string * iface)) (e : os.environ) :
  NoDup l.*1 →
  let st := foldl setOne (Saved ∅ [], e) l in
  (∀ k, originalValues st.1 !! k = if decide (k ∈ l.*1) then e !! k else None) ∧
  (∀ k, k ∈ keysToUnset st.1 ↔ k ∈ l.*1 ∧ e !! k = None) ∧
  (∀ k v, (k, v) ∈ l →
     st.2 !! k = match v with
                 | IString s => os.Setenv k s e !! k
                 | IOther _ _ => e !! k
                 end) ∧
  (∀ k, k ∉ l.*1 → st.2 !! k = e !! k).
Proof.
  induction l as [|[k1 v1] l IH] using rev_ind; intros Hnd; cbn zeta.
  - cbn. split_and!.
    + intros k. by rewrite lookup_empty.
    + intros k. split; [by intros ?%elem_of_nil | by intros [?%elem_of_nil _]].
    + by intros k v ?%elem_of_nil.
    + done.
  - rewrite fmap_app in Hnd. cbn in Hnd.
    apply NoDup_app in Hnd as (Hnd & Hfresh & _).
    assert (k1 ∉ l.*1) as Hk1.
    { intros Hin. apply (Hfresh _ Hin). apply list_elem_of_here. }
    specialize (IH Hnd). cbn zeta in IH.
    rewrite foldl_app. cbn [foldl].
    destruct (foldl setOne (Saved ∅ [], e) l) as [sv e1] eqn:Hst.
    cbn [fst snd] in IH. destruct IH as (Hov & Hku & Hset & Hframe).
    assert (e1 !! k1 = e !! k1) as He1 by by apply Hframe.
    rewrite fmap_app. cbn [fmap list_fmap fst].
    unfold setOne. cbn [fst snd]. unfold os.LookupEnv. rewrite He1.
    split_and!.
    + intros k. destruct (e !! k1) as [o|] eqn:Hek1; cbn [fst originalValues].
      * destruct (decide (k = k1)) as [->|Hne].
        -- rewrite lookup_insert_eq, decide_True; [done|].
           apply elem_of_app. right. apply list_elem_of_here.
        -- rewrite lookup_insert_ne by done. rewrite Hov.
           apply decide_ext. rewrite elem_of_app, list_elem_of_singleton. intuition congruence.
      * rewrite Hov. destruct (decide (k = k1)) as [->|Hne].
        -- rewrite decide_False by done. rewrite decide_True; [done|].
           apply elem_of_app. right. apply list_elem_of_here.
        -- apply decide_ext. rewrite elem_of_app, list_elem_of_singleton. intuition congruence.
    + intros k. destruct (e !! k1) as [o|] eqn:Hek1; cbn [fst keysToUnset].
      * rewrite Hku, elem_of_app, list_elem_of_singleton. intuition congruence.
      * rewrite !elem_of_app, Hku, !list_elem_of_singleton. intuition congruence.
    + intros k v [Hin|Hin]%elem_of_app; cbn [snd].
      * assert (k ≠ k1) as Hne.
        { intros ->. apply Hk1. apply list_elem_of_fmap. by exists (k1, v). }
        specialize (Hset _ _ Hin).
        destruct (assert_string v1) as [s1|].
        -- rewrite Setenv_lookup, decide_False by done. done.
        -- done.
      * apply list_elem_of_singleton in Hin. injection Hin as -> ->.
        destruct v1 as [s|r r']; cbn [assert_string].
        -- rewrite !Setenv_lookup, !decide_True by done. by rewrite He1.
        -- done.
    + intros k Hk. cbn [snd].
      rewrite elem_of_app, list_elem_of_singleton in Hk.
      assert (k ≠ k1) by tauto. assert (k ∉ l.*1) by tauto.
      destruct (assert_string v1) as [s1|].
      * rewrite Setenv_lookup, decide_False by done. by apply Hframe.
      * by apply Hframe.
Qed.

(** The two loops of the cleanup function. *)
Lemma restore_set_loop (l : list (string * string)) (e : os.environ) k :
  NoDup l.*1 →
  foldl (λ e kv, os.Setenv kv.1 kv.2 e) e l !! k =
    match (list_to_map l : gmap string string) !! k with
    | Some v => os.Setenv k v e !! k
    | None => e !! k
    end.
Proof.
  revert e. induction l as [|[k1 v1] l IH]; intros e Hnd; cbn [foldl].
  - by rewrite list_to_map_nil, lookup_empty.
  - apply NoDup_cons in Hnd as [Hk1 Hnd]. rewrite IH by done. cbn [fst snd].
    rewrite list_to_map_cons.
    destruct (decide (k1 = k)) as [->|Hne].
    + rewrite lookup_insert_eq.
      rewrite (not_elem_of_list_to_map_1 l k) by done. done.
    + rewrite lookup_insert_ne by done.
      destruct (list_to_map l !! k) as [v|].
      * rewrite !Setenv_lookup. by repeat case_decide.
      * rewrite Setenv_lookup. by rewrite decide_False.
Qed.

Lemma restore_unset_loop (keys : list string) (e : os.environ) k :
  foldl (λ e key, os.Unsetenv key e) e keys !! k =
    if decide (k ∈ keys) then None else e !! k.
Proof.
  revert e. induction keys as [|key keys IH]; intros e; cbn [foldl].
  - by rewrite decide_False by apply not_elem_of_nil.
  - rewrite IH. unfold os.Unsetenv.
    destruct (decide (k ∈ keys)) as [Hin|Hnin].
    + rewrite decide_True; [done | by apply list_elem_of_further].
    + destruct (decide (k = key)) as [->|Hne].
      * rewrite lookup_delete_eq. rewrite decide_True; [done | apply list_elem_of_here].
      * rewrite lookup_delete_ne by done. rewrite decide_False; [done|].
        intros [?|?]%elem_of_cons; done.
Qed.

Lemma restoreEnv_lookup sv e k :
  restoreEnv range sv e !! k =
    if decide (k ∈ keysToUnset sv) then None
    else match originalValues sv !! k with
         | Some v => os.Setenv k v e !! k
         | None => e !! k
         end.
Proof.
  unfold restoreEnv. rewrite restore_unset_loop. case_decide; [done|].
  rewrite restore_set_loop by apply range_NoDup_keys.
  by rewrite (list_to_map_proper _ _ (range_NoDup_keys _ _) (range_visits_all _ _)),
    list_to_map_to_list.
Qed.

(** What the call saves and what it leaves, in terms of the complete map. *)
Lemma setEnvironmentVariablesSaved_spec envVars (e0 : os.environ) :
  let complete := completeEnvVars range envVars e0 in
  let st := setEnvironmentVariablesSaved range envVars e0 in
  (∀ k, originalValues st.1 !! k =
          if decide (is_Some (complete !! k)) then e0 !! k else None) ∧
  (∀ k, k ∈ keysToUnset st.1 ↔ is_Some (complete !! k) ∧ e0 !! k = None) ∧
  (∀ k, st.2 !! k = match complete !! k with
                    | Some (IString s) => os.Setenv k s e0 !! k
                    | _ => e0 !! k
                    end).
Proof.
  intros complete st. subst st. unfold setEnvironmentVariablesSaved.
  fold complete.
  destruct (setOne_loop (range _ complete) e0 (range_NoDup_keys _ _))
    as (Hov & Hku & Hset & Hframe).
  split_and!.
  - intros k. rewrite Hov. apply decide_ext, range_keys.
  - intros k. rewrite Hku. by rewrite range_keys.
  - intros k. destruct (complete !! k) as [v|] eqn:Hk.
    + apply range_elem in Hk. rewrite (Hset _ _ Hk). by destruct v.
    + apply Hframe. rewrite range_keys, Hk. by intros [? ?].
Qed.

Lemma setEnvironmentVariables_unfold envVars (e0 : os.environ) :
  setEnvironmentVariables range envVars e0 =
    (restoreEnv range (setEnvironmentVariablesSaved range envVars e0).1,
     (setEnvironmentVariablesSaved range envVars e0).2).
Proof.
  unfold setEnvironmentVariables.
  by destruct (setEnvironmentVariablesSaved range envVars e0).
Qed.

Lemma environ_wf_lookup (e : os.environ) k v :
  os.environ_wf e → e !! k = Some v → os.key_ok k && os.value_ok v = true.
Proof. intros Hwf Hk. exact (Hwf k v Hk). Qed.

(** Restoration of an affected variable, whatever happened in between. *)
Lemma restoreEnv_affected envVars (e0 e2 : os.environ) k :
  os.environ_wf e0 →
  is_Some (completeEnvVars range envVars e0 !! k) →
  (setEnvironmentVariables range envVars e0).1 e2 !! k = e0 !! k.
Proof.
  intros Hwf Hk. rewrite setEnvironmentVariables_unfold. cbn [fst].
  destruct (setEnvironmentVariablesSaved_spec envVars e0) as (Hov & Hku & _).
  rewrite restoreEnv_lookup, Hov. rewrite (decide_True (P := is_Some _)) by done.
  destruct (e0 !! k) as [v|] eqn:He0.
  - rewrite decide_False.
    + rewrite Setenv_lookup, decide_True by done.
      by rewrite (environ_wf_lookup e0 k v).
    + rewrite Hku. intros [_ ?]. congruence.
  - rewrite decide_True; [done|]. by apply Hku.
Qed.

(** Variables that were not affected are left as the wrapped call left them. *)
Lemma restoreEnv_frame envVars (e0 e2 : os.environ) k :
  completeEnvVars range envVars e0 !! k = None →
  (setEnvironmentVariables range envVars e0).1 e2 !! k = e2 !! k.
Proof.
  intros Hk. rewrite setEnvironmentVariables_unfold. cbn [fst].
  destruct (setEnvironmentVariablesSaved_spec envVars e0) as (Hov & Hku & _).
  rewrite restoreEnv_lookup, Hov, Hk.
  rewrite (decide_False (P := is_Some _)) by by intros [? ?].
  rewrite decide_False; [done|].
  rewrite Hku, Hk. by intros [[? ?] _].
Qed.

Lemma setEnvironmentVariables_frame envVars (e0 : os.environ) k :
  completeEnvVars range envVars e0 !! k = None →
  (setEnvironmentVariables range envVars e0).2 !! k = e0 !! k.
Proof.
  intros Hk. rewrite setEnvironmentVariables_unfold. cbn [snd].
  destruct (setEnvironmentVariablesSaved_spec envVars e0) as (_ & _ & Hset).
  by rewrite Hset, Hk.
Qed.

(** Set then restore, with nothing in between, is the identity. *)
Lemma restoreEnv_roundtrip envVars (e0 : os.environ) :
  os.environ_wf e0 →
  (setEnvironmentVariables range envVars e0).1
    ((setEnvironmentVariables range envVars e0).2) = e0.
Proof.
  intros Hwf. apply map_eq. intros k.
  destruct (completeEnvVars range envVars e0 !! k) as [v|] eqn:Hk.
  - apply restoreEnv_affected; [done | by rewrite Hk].
  - rewrite restoreEnv_frame by done. by apply setEnvironmentVariables_frame.
Qed.

End EnvironmentScopingFacts.

(** ** The in-process executor and its environment *)

Section LibraryExecutorFacts.

Variable range : ∀ V : Type, gmap string V → list (string * V).
Hypothesis range_visits_all : ∀ V (m : gmap string V), range V m ≡ₚ map_to_list m.
Variable helmfileApp : configProvider → os.environ → (string * option error) * os.environ.
Variable Sprintf_v_map : gmap string iface → string.

(** Each operation ends by running the deferred cleanup on the
    environment the application left, on the error path as on the
    normal one. *)
Lemma LibraryExecutor_Diff_env opts e0 :
  ∃ e2, (LibraryExecutor_Diff range helmfileApp opts e0).2 =
          (setEnvironmentVariables range
             (EnvironmentVariables (diff_BaseOptions opts)) e0).1 e2.
Proof.
  unfold LibraryExecutor_Diff.
  destruct (setEnvironmentVariables _ _ _) as [restore e1].
  destruct (helmfileApp _ _) as [[output err] e2]. by exists e2.
Qed.

Lemma LibraryExecutor_Apply_env opts e0 :
  ∃ e2, (LibraryExecutor_Apply range helmfileApp Sprintf_v_map opts e0).2 =
          (setEnvironmentVariables range
             (EnvironmentVariables (apply_BaseOptions opts)) e0).1 e2.
Proof.
  unfold LibraryExecutor_Apply.
  destruct (setEnvironmentVariables _ _ _) as [restore e1].
  destruct (helmfileApp _ _) as [[output err] e2]. by exists e2.
Qed.

Lemma LibraryExecutor_Template_env opts e0 :
  ∃ e2, (LibraryExecutor_Template range helmfileApp opts e0).2 =
          (setEnvironmentVariables range
             (EnvironmentVariables (template_BaseOptions opts)) e0).1 e2.
Proof.
  unfold LibraryExecutor_Template.
  destruct (setEnvironmentVariables _ _ _) as [restore e1].
  destruct (helmfileApp _ _) as [[output err] e2]. by exists e2.
Qed.

Lemma LibraryExecutor_Destroy_env opts e0 :
  ∃ e2, (LibraryExecutor_Destroy range helmfileApp opts e0).2 =
          (setEnvironmentVariables range
             (EnvironmentVariables (destroy_BaseOptions opts)) e0).1 e2.
Proof.
  unfold LibraryExecutor_Destroy.
  destruct (setEnvironmentVariables _ _ _) as [restore e1].
  destruct (helmfileApp _ _) as [[output err] e2]. by exists e2.
Qed.

(** C2.  Environment scoping round-trips.  For every override mapping
    and every (well-formed) prior environment, the restoration action
    returned by [setEnvironmentVariables] puts every affected variable
    -- every configured one, and every fixed AWS variable found in the
    parent -- back to its state before the call: the same value if it
    was present (an empty value included), absent if it was absent.
    This holds whatever environment the wrapped operation leaves
    behind, so on the failure path too; variables that were not
    affected are not touched by the restoration; with nothing in
    between, set followed by restore is the identity; and the four
    operations of the in-process executor, which defer the restoration,
    end with every affected variable restored whether the application
    returned an error or not. *)
Theorem C2_environment_roundtrip (envVars : gmap string iface) (e0 : os.environ) :
  os.environ_wf e0 →
  let restore := (setEnvironmentVariables range envVars e0).1 in
  let e1 := (setEnvironmentVariables range envVars e0).2 in
  let affected k := is_Some (completeEnvVars range envVars e0 !! k) in
  (∀ k, is_Some (envVars !! k) → affected k) ∧
  (∀ e2 k, affected k → restore e2 !! k = e0 !! k) ∧
  (∀ e2 k, ¬ affected k → restore e2 !! k = e2 !! k) ∧
  restore e1 = e0 ∧
  (∀ opts k, EnvironmentVariables (apply_BaseOptions opts) = envVars → affected k →
     (LibraryExecutor_Apply range helmfileApp Sprintf_v_map opts e0).2 !! k = e0 !! k) ∧
  (∀ opts k, EnvironmentVariables (diff_BaseOptions opts) = envVars → affected k →
     (LibraryExecutor_Diff range helmfileApp opts e0).2 !! k = e0 !! k) ∧
  (∀ opts k, EnvironmentVariables (template_BaseOptions opts) = envVars → affected k →
     (LibraryExecutor_Template range helmfileApp opts e0).2 !! k = e0 !! k) ∧
  (∀ opts k, EnvironmentVariables (destroy_BaseOptions opts) = envVars → affected k →
     (LibraryExecutor_Destroy range helmfileApp opts e0).2 !! k = e0 !! k).
Proof.
  intros Hwf restore e1 affected. subst restore e1 affected. cbn beta.
  split_and!.
  - intros k [v Hv]. rewrite (completeEnvVars_lookup range range_visits_all), Hv. by exists v.
  - intros e2 k Hk. by apply restoreEnv_affected.
  - intros e2 k Hk. apply restoreEnv_frame; [done|].
    destruct (completeEnvVars range envVars e0 !! k) eqn:E; [|done].
    exfalso. apply Hk. by eexists.
  - by apply restoreEnv_roundtrip.
  - intros opts k <- Hk. destruct (LibraryExecutor_Apply_env opts e0) as [e2 ->].
    by apply restoreEnv_affected.
  - intros opts k <- Hk. destruct (LibraryExecutor_Diff_env opts e0) as [e2 ->].
    by apply restoreEnv_affected.
  - intros opts k <- Hk. destruct (LibraryExecutor_Template_env opts e0) as [e2 ->].
    by apply restoreEnv_affected.
  - intros opts k <- Hk. destruct (LibraryExecutor_Destroy_env opts e0) as [e2 ->].
    by apply restoreEnv_affected.
Qed.

(** C8.  Besides the configured override map, [setEnvironmentVariables]
    takes up each of the nine fixed variables (AWS_PROFILE, AWS_REGION,
    AWS_DEFAULT_REGION, AWS_ACCESS_KEY_ID, AWS_SECRET_ACCESS_KEY,
    AWS_SESSION_TOKEN, AWS_CONFIG_FILE, AWS_SHARED_CREDENTIALS_FILE,
    HOME) that is present in the parent environment, with its parent
    value; an explicitly configured variable of the same name takes
    precedence; a configured string is written to the environment (when
    the system accepts the pair); a configured value that is not a
    string is never written; no other variable changes. *)
Theorem C8_parent_aws_variables_propagated
    (envVars : gmap string iface) (e0 : os.environ) (k : string) :
  let complete := completeEnvVars range envVars e0 in
  let e1 := (setEnvironmentVariables range envVars e0).2 in
  awsEnvVars =
    ["AWS_PROFILE"; "AWS_REGION"; "AWS_DEFAULT_REGION"; "AWS_ACCESS_KEY_ID";
     "AWS_SECRET_ACCESS_KEY"; "AWS_SESSION_TOKEN"; "AWS_CONFIG_FILE";
     "AWS_SHARED_CREDENTIALS_FILE"; "HOME"] ∧
  complete !! k =
    match envVars !! k with
    | Some v => Some v
    | None => if decide (k ∈ awsEnvVars) then IString <$> e0 !! k else None
    end ∧
  (∀ v, k ∈ awsEnvVars → envVars !! k = None → e0 !! k = Some v →
        complete !! k = Some (IString v) ∧ e1 !! k = Some v) ∧
  (∀ s, envVars !! k = Some (IString s) →
        complete !! k = Some (IString s) ∧
        e1 !! k = if os.key_ok k && os.value_ok s then Some s else e0 !! k) ∧
  (∀ r r', envVars !! k = Some (IOther r r') → e1 !! k = e0 !! k) ∧
  (complete !! k = None → e1 !! k = e0 !! k).
Proof.
  intros complete e1.
  pose proof (completeEnvVars_lookup range range_visits_all envVars e0 k) as Hc.
  fold complete in Hc.
  assert (e1 !! k = match complete !! k with
                    | Some (IString s) => os.Setenv k s e0 !! k
                    | _ => e0 !! k
                    end) as He1.
  { subst e1. rewrite (setEnvironmentVariables_unfold range). cbn [snd].
    by destruct (setEnvironmentVariablesSaved_spec range range_visits_all envVars e0)
      as (_ & _ & ->). }
  split_and!.
  - reflexivity.
  - exact Hc.
  - intros v Hin Hnone He0. rewrite Hnone, decide_True, He0 in Hc by done.
    cbn in Hc. split; [done|].
    rewrite He1, Hc. by rewrite Setenv_same.
  - intros s Hs. rewrite Hs in Hc. split; [done|].
    rewrite He1, Hc, Setenv_lookup, decide_True by done. done.
  - intros r r' Hr. rewrite Hr in Hc. by rewrite He1, Hc.
  - intros Hnone. by rewrite He1, Hnone.
Qed.

End LibraryExecutorFacts.

(** ** Result normalization in the two executors *)

(** The status helmfile ends a diff with, under [--detailed-exitcode],
    when changes are pending. *)
Definition changesPending : Z := 2.

(** The exit status an error of the child process stands for. *)
Definition exitStatus (err : option error) : Z :=
  match err with
  | Some (ExitError code) => code
  | _ => 0
  end.

(** What the subprocess variant hands back: the [Error] field is the
    returned error, the exit code is the status of the child, and it is
    non-zero only next to an error. *)
Definition subprocessRule (ret : Result * option error) : Prop :=
  Error ret.1 = ret.2 ∧ ExitCode ret.1 = exitStatus ret.2 ∧
  (ExitCode ret.1 ≠ 0%Z → ret.2 ≠ None).

(** What the in-process variant hands back: a result whose [Error] field
    is the returned error, with exit code 1 next to an error and 0
    otherwise. *)
Definition inProcessRule (ret : option Result * option error) : Prop :=
  ∃ r, ret.1 = Some r ∧ Error r = ret.2 ∧
       ExitCode r = (match ret.2 with Some _ => 1 | None => 0 end)%Z ∧
       (ExitCode r ≠ 0%Z → ret.2 ≠ None).

(** Options with every field empty, for closed examples. *)
Definition emptyBaseOptions : BaseOptions :=
  mkBaseOptions "" "" "" "" "" "" ∅ SliceNil SliceNil SliceNil ∅ "" "" false.

Definition someDiffOptions : DiffOptions :=
  mkDiffOptions emptyBaseOptions 0 ∅ true true 3 0.

Section ResultNormalization.

Variable range : ∀ V : Type, gmap string V → list (string * V).
Variable CombinedOutput : Cmd → string * option error.
Variable Environ : list string.
Variable readEnvironmentVariables : gmap string iface → string → list string.
Variable helmfileApp : configProvider → os.environ → (string * option error) * os.environ.
Variable Sprintf_v_map : gmap string iface → string.

Local Abbreviation run := (runCommand CombinedOutput Environ readEnvironmentVariables).

Lemma runCommand_spec opts args :
  ∃ cmd, cmd_Args cmd = args ∧
    run opts args =
      (mkResult (CombinedOutput cmd).1 (exitStatus (CombinedOutput cmd).2)
         (CombinedOutput cmd).2,
       (CombinedOutput cmd).2).
Proof.
  unfold runCommand.
  match goal with |- context [CombinedOutput ?c] => exists c end.
  split; [done|].
  destruct (CombinedOutput _) as [output [[code|msg code|op path b|msg]|]]; done.
Qed.

Lemma runCommand_rule opts args : subprocessRule (run opts args).
Proof.
  destruct (runCommand_spec opts args) as (cmd & _ & ->).
  unfold subprocessRule. cbn.
  split_and!; [done | done |].
  destruct (CombinedOutput cmd).2 as [e|]; [done|]. by cbn.
Qed.

Lemma packResult_rule output err : inProcessRule (packResult output err).
Proof.
  destruct err as [e|]; eexists; cbn; by split_and!.
Qed.

Lemma LibraryExecutor_Apply_ret opts e0 :
  ∃ output err,
    (LibraryExecutor_Apply range helmfileApp Sprintf_v_map opts e0).1 =
      packResult output err.
Proof.
  unfold LibraryExecutor_Apply.
  destruct (setEnvironmentVariables _ _ _) as [restore e1].
  destruct (helmfileApp _ _) as [[output err] e2]. by eexists _, _.
Qed.

(** The in-process [Diff] hands back exactly what the application
    answered, with the exit code flattened to 0 or 1. *)
Lemma LibraryExecutor_Diff_ret opts e0 :
  ∃ config e1,
    (LibraryExecutor_Diff range helmfileApp opts e0).1 =
      packResult (helmfileApp config e1).1.1 (helmfileApp config e1).1.2.
Proof.
  unfold LibraryExecutor_Diff.
  destruct (setEnvironmentVariables _ _ _) as [restore e1].
  match goal with |- context [helmfileApp ?c e1] => exists c, e1 end.
  by destruct (helmfileApp _ _) as [[output err] e2].
Qed.

Lemma LibraryExecutor_Template_ret opts e0 :
  ∃ output err,
    (LibraryExecutor_Template range helmfileApp opts e0).1 = packResult output err.
Proof.
  unfold LibraryExecutor_Template.
  destruct (setEnvironmentVariables _ _ _) as [restore e1].
  destruct (helmfileApp _ _) as [[output err] e2]. by eexists _, _.
Qed.

Lemma LibraryExecutor_Destroy_ret opts e0 :
  ∃ output err,
    (LibraryExecutor_Destroy range helmfileApp opts e0).1 = packResult output err.
Proof.
  unfold LibraryExecutor_Destroy.
  destruct (setEnvironmentVariables _ _ _) as [restore e1].
  destruct (helmfileApp _ _) as [[output err] e2]. by eexists _, _.
Qed.

(** C3.  The exit-code rule of the executors.  Neither variant makes an
    exception for diff.  Subprocess variant, each of apply, diff,
    template, destroy and build: a result is handed back whose [Error] is
    the returned error and whose exit code is the status of the child
    when the error is an exit error and 0 otherwise, so a non-zero exit
    code always comes with a returned error; a diff whose child ends with
    the changes-pending status is handed back with that status, the diff
    text as output, and the exit error as the returned error.
    In-process variant, each of apply, diff, template and destroy: a
    result is handed back whose [Error] is the returned error, with exit
    code 1 next to an error and 0 otherwise; a diff for which the
    application signals pending changes is handed back with exit code 1
    and that error.  The in-process build hands back no result at all,
    only an error. *)
Theorem C3_exit_code_rule :
  (∀ o, subprocessRule
          (BinaryExecutor_Apply range CombinedOutput Environ readEnvironmentVariables o)) ∧
  (∀ o, subprocessRule
          (BinaryExecutor_Diff range CombinedOutput Environ readEnvironmentVariables o)) ∧
  (∀ o, subprocessRule
          (BinaryExecutor_Template range CombinedOutput Environ readEnvironmentVariables o)) ∧
  (∀ o, subprocessRule
          (BinaryExecutor_Destroy range CombinedOutput Environ readEnvironmentVariables o)) ∧
  (∀ o, subprocessRule
          (BinaryExecutor_Build range CombinedOutput Environ readEnvironmentVariables o)) ∧
  (∀ o e0, inProcessRule
             (LibraryExecutor_Apply range helmfileApp Sprintf_v_map o e0).1) ∧
  (∀ o e0, inProcessRule (LibraryExecutor_Diff range helmfileApp o e0).1) ∧
  (∀ o e0, inProcessRule (LibraryExecutor_Template range helmfileApp o e0).1) ∧
  (∀ o e0, inProcessRule (LibraryExecutor_Destroy range helmfileApp o e0).1) ∧
  (∀ o, (LibraryExecutor_Build o).1 = None ∧ (LibraryExecutor_Build o).2 ≠ None ∧
        ¬ inProcessRule (LibraryExecutor_Build o)) ∧
  (∀ o text,
     (∀ cmd, CombinedOutput cmd = (text, Some (ExitError changesPending))) →
     BinaryExecutor_Diff range CombinedOutput Environ readEnvironmentVariables o =
       (mkResult text changesPending (Some (ExitError changesPending)),
        Some (ExitError changesPending))) ∧
  (∀ o e0 text msg,
     (∀ config e, (helmfileApp config e).1 = (text, Some (AppError msg changesPending))) →
     (LibraryExecutor_Diff range helmfileApp o e0).1 =
       (Some (mkResult text 1 (Some (AppError msg changesPending))),
        Some (AppError msg changesPending))).
Proof.
  split_and!.
  - intros o. apply runCommand_rule.
  - intros o. apply runCommand_rule.
  - intros o. apply runCommand_rule.
  - intros o. apply runCommand_rule.
  - intros o. apply runCommand_rule.
  - intros o e0. destruct (LibraryExecutor_Apply_ret o e0) as (out & err & ->).
    apply packResult_rule.
  - intros o e0. destruct (LibraryExecutor_Diff_ret o e0) as (cfg & e1 & ->).
    apply packResult_rule.
  - intros o e0. destruct (LibraryExecutor_Template_ret o e0) as (out & err & ->).
    apply packResult_rule.
  - intros o e0. destruct (LibraryExecutor_Destroy_ret o e0) as (out & err & ->).
    apply packResult_rule.
  - intros o. split_and!; [done | done |]. by intros (r & Hr & _).
  - intros o text Hchild. unfold BinaryExecutor_Diff.
    destruct (runCommand_spec (diff_BaseOptions o)
      (["diff"] ++ buildBaseArgs range (diff_BaseOptions o)
       ++ flag_if (bool_decide (0 < diff_Concurrency o)%Z)
            ["--concurrency"; Itoa (diff_Concurrency o)]
       ++ flag_if (diff_DetailedExitcode o) ["--detailed-exitcode"]
       ++ flag_if (diff_SuppressSecrets o) ["--suppress-secrets"]
       ++ flag_if (bool_decide (0 < diff_Context o)%Z)
            ["--context"; Itoa (diff_Context o)]
       ++ set_flags range (diff_ReleasesValues o))) as (cmd & _ & ->).
    by rewrite Hchild.
  - intros o e0 text msg Happ.
    destruct (LibraryExecutor_Diff_ret o e0) as (cfg & e1 & ->).
    by rewrite Happ.
Qed.

End ResultNormalization.

(** C3, counterexample to the specification's wording, which has a diff
    that ends with the changes-pending status not reported as an error:
    the subprocess executor returns the exit error of such a diff, and
    the in-process executor returns the application's change signal as
    an error, with exit code 1. *)
Lemma C3_diff_changes_pending_is_reported_as_error :
  (BinaryExecutor_Diff (λ V, map_to_list)
     (λ _, ("1 change", Some (ExitError changesPending))) [] (λ _ _, [])
     someDiffOptions).2 ≠ None ∧
  (LibraryExecutor_Diff (λ V, map_to_list)
     (λ _ e, (("1 change", Some (AppError "Identified at least one change" changesPending)), e))
     someDiffOptions ∅).1
  = (Some (mkResult "1 change" 1
             (Some (AppError "Identified at least one change" changesPending))),
     Some (AppError "Identified at least one change" changesPending)).
Proof.
  split.
  - by vm_compute.
  - by vm_compute.
Qed.

(** C9.  The in-process variant does not implement the full operation
    set: [Build] returns no result and an error saying that the operation
    is not implemented, whatever the options; [Version] returns the
    constant "library-mode" and no error. *)
Theorem C9_library_build_and_version :
  (∀ opts, ∃ msg,
     LibraryExecutor_Build opts = (None, Some (Errorf msg)) ∧
     Contains msg "not yet implemented" = true) ∧
  LibraryExecutor_Version = ("library-mode", None).
Proof.
  split; [|reflexivity].
  intros opts. eexists. split; reflexivity.
Qed.

(** ** Credential provisioner *)

Section CredentialProvisionerFacts.

Variable yaml_Marshal : KubeconfigData → string + error.
Variable Error_text : error → string.
Variable fsys : Type.
Variable Remove : string → fsys → option error * fsys.

(** C5.  The outcomes of cleanup.  [cleanupKubeconfig] returns no error on
    an empty path (and leaves the file system alone), after a
    successful removal, and when the removal fails because the path
    does not exist; a removal failure other than absence is logged as a
    warning and returned to the caller.  On a system where a removed
    path is gone afterwards, calling cleanup a second time after a
    successful first call returns no error and changes nothing. *)
Theorem C5_cleanup_outcomes (path : string) (w : fsys) :
  let ret := cleanupKubeconfig Error_text fsys Remove path w in
  (path = "" → ret = (None, w, [])) ∧
  (path ≠ "" → ∀ w', Remove path w = (None, w') →
     ret.1 = (None, w')) ∧
  (path ≠ "" → ∀ e w', Remove path w = (Some e, w') → IsNotExist e = true →
     ret.1 = (None, w')) ∧
  (path ≠ "" → ∀ e w', Remove path w = (Some e, w') → IsNotExist e = false →
     ret = (Some e, w',
            ["Warning: failed to cleanup kubeconfig at " +:+ path +:+ ": "
             +:+ Error_text e])) ∧
  ((∀ p w1 w2, Remove p w1 = (None, w2) →
      ∃ e, Remove p w2 = (Some e, w2) ∧ IsNotExist e = true) →
   path ≠ "" → ∀ w', Remove path w = (None, w') →
     (cleanupKubeconfig Error_text fsys Remove path ret.1.2).1 = (None, w')).
Proof.
  intros ret. subst ret. unfold cleanupKubeconfig. split_and!.
  - intros ->. done.
  - intros Hne w' Hrm. rewrite bool_decide_false, Hrm by done. done.
  - intros Hne e w' Hrm Hex. rewrite bool_decide_false, Hrm, Hex by done. done.
  - intros Hne e w' Hrm Hex. rewrite bool_decide_false, Hrm, Hex by done. done.
  - intros Hgone Hne w' Hrm. rewrite !bool_decide_false, Hrm by done. cbn.
    destruct (Hgone _ _ _ Hrm) as (e & -> & ->). done.
Qed.

(** C6.  The document [generateKubeconfigYAML] marshals has exactly one
    cluster entry, one context entry and one user entry, all named
    after the cluster, as is the current context; the context refers to
    that cluster and user; the user's exec entry runs "aws" with
    arguments that begin eks, get-token, --cluster-name, <name> and end
    with --region, <region> exactly when the region is non-empty; its
    environment is the single entry AWS_PROFILE=<profile> when a
    profile is configured and empty otherwise. *)
Theorem C6_kubeconfig_document (config : EKSClusterConfig) :
  let doc := buildKubeconfig config in
  let name := ClusterName config in
  (generateKubeconfigYAML yaml_Marshal Error_text config).1 =
    match yaml_Marshal doc with
    | inl yamlBytes => (yamlBytes, None)
    | inr err => ("", Some (Errorf ("marshaling kubeconfig to YAML: " +:+ Error_text err)))
    end ∧
  CurrentContext doc = name ∧
  Clusters doc = [mkClusterEntry name (mkClusterDetail (Endpoint config) (CA config))] ∧
  Contexts doc = [mkContextEntry name (mkContextDetail name name)] ∧
  ∃ exec,
    Users doc = [mkUserEntry name (mkUserDetail exec)] ∧
    Command exec = "aws" ∧
    Args exec =
      ["eks"; "get-token"; "--cluster-name"; name]
      ++ (if decide (Region config = "") then [] else ["--region"; Region config]) ∧
    Env exec =
      (if decide (AWSProfile config = "") then []
       else [mkExecEnvVar "AWS_PROFILE" (AWSProfile config)]) ∧
    (AWSProfile config = "" → ∀ v, v ∈ Env exec → env_Name v ≠ "AWS_PROFILE").
Proof.
  intros doc name. split_and!; try reflexivity.
  - unfold generateKubeconfigYAML. fold doc. by destruct (yaml_Marshal doc).
  - eexists. split; [reflexivity|]. cbn [Command Args Env]. split_and!.
    + reflexivity.
    + unfold execArgs. fold name.
      destruct (decide (Region config = "")) as [Hr|Hr].
      * rewrite bool_decide_false by (by intros ?). by rewrite app_nil_r.
      * by rewrite bool_decide_true.
    + unfold execEnvVars.
      destruct (decide (AWSProfile config = "")) as [Hp|Hp].
      * by rewrite bool_decide_false by (by intros ?).
      * by rewrite bool_decide_true.
    + intros Hp v. unfold execEnvVars.
      rewrite bool_decide_false by (by intros ?). by intros ?%elem_of_nil.
Qed.

End CredentialProvisionerFacts.

(** The small file system obeys the law of the last part of C5. *)
Lemma simple_Remove_gone p w1 w2 :
  simple_Remove p w1 = (None, w2) →
  ∃ e, simple_Remove p w2 = (Some e, w2) ∧ IsNotExist e = true.
Proof.
  unfold simple_Remove. destruct (sfs_files w1 !! p) eqn:Hp; [|done].
  case_bool_decide; [done|]. intros [= <-]. cbn.
  rewrite lookup_delete_eq. by eexists.
Qed.

Definition kubeconfigOnDisk : simpleFS :=
  mkSimpleFS {[ "/work/.terraform-helmfile-kubeconfig-c-0a1b2c3d" := "apiVersion: v1" ]}
             ∅.

Definition kubeconfigLocked : simpleFS :=
  mkSimpleFS {[ "/work/.terraform-helmfile-kubeconfig-c-0a1b2c3d" := "apiVersion: v1" ]}
             {[ "/work/.terraform-helmfile-kubeconfig-c-0a1b2c3d" ]}.

(** C5 at a concrete file: cleanup twice on a file that can be removed. *)
Lemma C5_cleanup_outcomes_witness :
  let path := "/work/.terraform-helmfile-kubeconfig-c-0a1b2c3d" in
  let first := cleanupKubeconfig simple_Error_text simpleFS simple_Remove path kubeconfigOnDisk in
  (cleanupKubeconfig simple_Error_text simpleFS simple_Remove path first.1.2).1
  = (None, mkSimpleFS (delete path (sfs_files kubeconfigOnDisk)) ∅).
Proof.
  intros path first.
  refine (proj2 (proj2 (proj2 (proj2
    (C5_cleanup_outcomes simple_Error_text simpleFS simple_Remove path kubeconfigOnDisk))))
    simple_Remove_gone _ _ _).
  - done.
  - reflexivity.
Defined.

(** C5, counterexample to the specification's wording, which has cleanup
    never return an error: a removal failure other than absence is
    returned.  Here the file exists and the system refuses to remove it. *)
Lemma C5_cleanup_returns_removal_failure :
  let path := "/work/.terraform-helmfile-kubeconfig-c-0a1b2c3d" in
  cleanupKubeconfig simple_Error_text simpleFS simple_Remove path kubeconfigLocked
  = (Some (PathError "remove" path false), kubeconfigLocked,
     ["Warning: failed to cleanup kubeconfig at " +:+ path +:+ ": remove " +:+ path]).
Proof. by vm_compute. Qed.

(** ** Validation of the credential configuration *)

(** The nine rows of [TestValidateEKSConfiguration]: the attributes set
    in each row, and the message fragment the row expects ([None] when no
    error is expected). *)
Definition validationTestTable : list (Getter * option string) :=
  [ ({[ KeyKubeconfig := "/path/to/kubeconfig" ]}, None);
    ({[ KeyEKSClusterName := "my-cluster"; KeyAWSRegion := "us-west-2" ]}, None);
    ({[ KeyEKSClusterName := "my-cluster"; KeyEKSClusterRegion := "us-west-2" ]}, None);
    ({[ KeyEKSClusterName := "my-cluster"; KeyAWSRegion := "us-west-2";
        KeyEKSClusterEndpoint := "https://example.eks.amazonaws.com";
        KeyEKSClusterCA := "LS0tLS1CRUdJTi0tLS0t" ]}, None);
    ({[ KeyKubeconfig := "/path/to/kubeconfig"; KeyEKSClusterName := "my-cluster" ]}, None);
    (∅, Some "either 'kubeconfig' or 'eks_cluster_name' must be provided");
    ({[ KeyEKSClusterName := "my-cluster" ]},
     Some "either eks_cluster_region or aws_region must be provided");
    ({[ KeyEKSClusterName := "my-cluster"; KeyAWSRegion := "us-west-2";
        KeyEKSClusterEndpoint := "https://example.eks.amazonaws.com" ]},
     Some "eks_cluster_endpoint and eks_cluster_ca must be provided together");
    ({[ KeyEKSClusterName := "my-cluster"; KeyAWSRegion := "us-west-2";
        KeyEKSClusterCA := "LS0tLS1CRUdJTi0tLS0t" ]},
     Some "eks_cluster_endpoint and eks_cluster_ca must be provided together") ].

(** What a row of the test checks. *)
Definition rowPasses (row : Getter * option string) : bool :=
  match validateEKSConfiguration row.1, row.2 with
  | None, None => true
  | Some (Errorf msg), Some fragment => Contains msg fragment
  | _, _ => false
  end.

(** The model of [validateEKSConfiguration] passes the whole test table. *)
Lemma validateEKSConfiguration_test_table :
  forallb rowPasses validationTestTable = true.
Proof. by vm_compute. Qed.

(** Without an explicit path the model is the two drafts of the design
    notes run one after the other. *)
Lemma validateEKSConfiguration_drafts (d : Getter) :
  Get d KeyKubeconfig = "" →
  validateEKSConfiguration d =
    match validateKubeconfigOrEKS_draft d with
    | Some err => Some err
    | None => validateEKSConfiguration_draft d
    end.
Proof.
  intros Hk.
  assert (getEKSRegion d = "" ↔
          Get d KeyEKSClusterRegion = "" ∧ Get d KeyAWSRegion = "") as Hregion.
  { unfold getEKSRegion. case_bool_decide; tauto. }
  unfold validateEKSConfiguration, validateKubeconfigOrEKS_draft,
    validateEKSConfiguration_draft.
  rewrite Hk.
  repeat case_bool_decide; try done; tauto.
Qed.

(** With an explicit path the drafts still ask the cluster reference for
    a region, which the fifth row of the test table rules out. *)
Example validateEKSConfiguration_draft_fifth_row :
  validateEKSConfiguration_draft
    {[ KeyKubeconfig := "/path/to/kubeconfig"; KeyEKSClusterName := "my-cluster" ]} ≠ None.
Proof. by vm_compute. Qed.

(** The conflicts in the specification's wording of C7. *)
Definition statedConflict (d : Getter) : Prop :=
  (Get d KeyKubeconfig = "" ∧ Get d KeyEKSClusterName = "") ∨
  (Get d KeyEKSClusterName ≠ "" ∧ getEKSRegion d = "") ∨
  (Get d KeyEKSClusterEndpoint ≠ "" ∧ Get d KeyEKSClusterCA = "") ∨
  (Get d KeyEKSClusterEndpoint = "" ∧ Get d KeyEKSClusterCA ≠ "").

(** C7, counterexample to the specification's wording: the fifth row of
    [TestValidateEKSConfiguration] gives an explicit credential path and
    a cluster reference with no region, which is one of the stated
    conflicts, and expects no error; validation returns none. *)
Lemma C7_cluster_without_region_passes_with_kubeconfig :
  let d : Getter :=
    {[ KeyKubeconfig := "/path/to/kubeconfig"; KeyEKSClusterName := "my-cluster" ]} in
  validationTestTable !! 4 = Some (d, None) ∧
  statedConflict d ∧ validateEKSConfiguration d = None.
Proof.
  intros d. split; [reflexivity|]. split; [|by vm_compute].
  right. left. split; [by vm_compute | by vm_compute].
Qed.

(** C7.  The conflicts validation fails on.  It fails exactly on: neither
    an explicit credential path nor a cluster reference (an error
    containing "must be provided"); a cluster reference with no region
    that resolves, unless an explicit credential path is given; the
    endpoint set without the CA, or the CA without the endpoint (an error
    containing "must be provided together" when neither of the first two
    conflicts is present, which are reported first).  Every other
    combination passes; with an explicit path, a cluster reference
    passes with or without a region. *)
Theorem C7_validation_conflicts (d : Getter) :
  let kubeconfig := Get d KeyKubeconfig in
  let cluster := Get d KeyEKSClusterName in
  let endpoint := Get d KeyEKSClusterEndpoint in
  let ca := Get d KeyEKSClusterCA in
  let neither := kubeconfig = "" ∧ cluster = "" in
  let noRegion := cluster ≠ "" ∧ kubeconfig = "" ∧ getEKSRegion d = "" in
  let halfManual := (endpoint ≠ "" ∧ ca = "") ∨ (endpoint = "" ∧ ca ≠ "") in
  (neither →
     ∃ msg, validateEKSConfiguration d = Some (Errorf msg) ∧
            Contains msg "must be provided" = true) ∧
  (noRegion →
     ∃ msg, validateEKSConfiguration d = Some (Errorf msg) ∧
            Contains msg "either eks_cluster_region or aws_region must be provided" = true) ∧
  (halfManual → validateEKSConfiguration d ≠ None) ∧
  (halfManual → ¬ neither → ¬ noRegion →
     ∃ msg, validateEKSConfiguration d = Some (Errorf msg) ∧
            Contains msg "must be provided together" = true) ∧
  (kubeconfig ≠ "" → cluster ≠ "" → ¬ halfManual → validateEKSConfiguration d = None) ∧
  (validateEKSConfiguration d ≠ None ↔ neither ∨ noRegion ∨ halfManual) ∧
  (validateEKSConfiguration d = None ↔ ¬ neither ∧ ¬ noRegion ∧ ¬ halfManual).
Proof.
  intros kubeconfig cluster endpoint ca neither noRegion halfManual.
  unfold validateEKSConfiguration.
  fold kubeconfig cluster endpoint ca. fold neither noRegion halfManual.
  split_and!.
  - intros Hn. rewrite bool_decide_true by done.
    eexists. split; [reflexivity | by vm_compute].
  - intros Hr. rewrite bool_decide_false by (unfold neither, noRegion in *; tauto).
    rewrite bool_decide_true by done.
    eexists. split; [reflexivity | by vm_compute].
  - intros Hm. repeat case_bool_decide; done.
  - intros Hm Hn Hr. rewrite !bool_decide_false by done. rewrite bool_decide_true by done.
    eexists. split; [reflexivity | by vm_compute].
  - intros Hk Hc Hm.
    rewrite !bool_decide_false by (unfold neither, noRegion in *; tauto). done.
  - repeat case_bool_decide; split; try done; tauto.
  - repeat case_bool_decide; split; try done; tauto.
Qed.

(** ** Diff reconciliation *)

(** C1.  The decision of [markDiffOutputs], on the checker of the unit
    tests, follows the table: when some tracked input key changed, both
    [diff_output] and [apply_output] are marked, with or without diff
    text; when no tracked input changed and the diff text is non-empty,
    only [apply_output] is marked; when no tracked input changed and
    there is no diff text, nothing is marked -- a change to a key outside
    the tracked set does not count.  The record of changes is not
    touched.  Starting from a checker with nothing marked, [diff_output]
    is marked exactly when a tracked input changed, and [apply_output]
    exactly when a tracked input changed or diff text is present. *)
Theorem C1_markDiffOutputs_table
    (d : mockDiffChecker) (diff : string) (inputKeys : list string) :
  let inputsChanged := ∃ k, k ∈ inputKeys ∧ changes d !! k = Some true in
  let d' := markDiffOutputs d diff inputKeys in
  changes d' = changes d ∧
  (inputsChanged →
     newComputed d' = <[KeyApplyOutput := true]> (<[KeyDiffOutput := true]> (newComputed d))) ∧
  (¬ inputsChanged → diff ≠ "" →
     newComputed d' = <[KeyApplyOutput := true]> (newComputed d)) ∧
  (¬ inputsChanged → diff = "" → d' = d) ∧
  (newComputed d = ∅ →
     (newComputed d' !! KeyDiffOutput = Some true ↔ inputsChanged) ∧
     (newComputed d' !! KeyApplyOutput = Some true ↔ inputsChanged ∨ diff ≠ "") ∧
     (∀ k, k ≠ KeyDiffOutput → k ≠ KeyApplyOutput → newComputed d' !! k = None)).
Proof.
  intros inputsChanged d'.
  assert (existsb (HasChange d) inputKeys = true ↔ inputsChanged) as Hex.
  { rewrite existsb_exists. unfold inputsChanged. cbn [HasChange mockDiffChecker_diffChecker].
    split.
    - intros (k & Hin & Hk). exists k. rewrite <- list_elem_of_In in Hin. split; [done|].
      by destruct (changes d !! k) as [[]|].
    - intros (k & Hin & Hk). exists k. rewrite <- list_elem_of_In. split; [done|].
      by rewrite Hk. }
  assert (KeyDiffOutput ≠ KeyApplyOutput) as Hkeys by done.
  subst d'. unfold markDiffOutputs.
  destruct (existsb (HasChange d) inputKeys) eqn:Hb.
  - assert inputsChanged as Hic by by apply Hex.
    cbn. split_and!; try done.
    intros Hempty. rewrite Hempty. split_and!.
    + by rewrite lookup_insert_ne, lookup_insert_eq.
    + rewrite lookup_insert_eq. tauto.
    + intros k ? ?. by rewrite !lookup_insert_ne, lookup_empty.
  - assert (¬ inputsChanged) as Hic by (rewrite <- Hex; congruence).
    case_bool_decide as Hdiff; cbn.
    + split_and!; try done.
      intros Hempty. rewrite Hempty. split_and!.
      * rewrite lookup_insert_ne, lookup_empty by done. split; [done | tauto].
      * rewrite lookup_insert_eq. tauto.
      * intros k ? ?. by rewrite lookup_insert_ne, lookup_empty.
    + split_and!; try done.
      intros Hempty. rewrite Hempty. split_and!.
      * rewrite lookup_empty. split; [done | tauto].
      * rewrite lookup_empty. split; [done|]. intros [?|?]; [tauto | done].
      * intros k ? ?. by rewrite lookup_empty.
Qed.

(** The scenarios of the unit tests of [markDiffOutputs]. *)
Lemma markDiffOutputs_unit_tests :
  let KeyValues := "values" in
  let KeyContent := "content" in
  newComputed (markDiffOutputs (newMockDiffChecker [KeyValues]) ""
                 [KeyValues; KeyContent; KeyKubeconfig])
    = {[ KeyDiffOutput := true; KeyApplyOutput := true ]} ∧
  newComputed (markDiffOutputs (newMockDiffChecker [KeyValues]) "some diff output"
                 [KeyValues; KeyContent])
    = {[ KeyDiffOutput := true; KeyApplyOutput := true ]} ∧
  newComputed (markDiffOutputs (newMockDiffChecker []) "some diff output"
                 [KeyValues; KeyContent])
    = {[ KeyApplyOutput := true ]} ∧
  newComputed (markDiffOutputs (newMockDiffChecker []) "" [KeyValues; KeyContent]) = ∅ ∧
  newComputed (markDiffOutputs (newMockDiffChecker ["some_other_key"]) ""
                 [KeyValues; KeyContent]) = ∅.
Proof. cbn zeta. split_and!; by vm_compute. Qed.

(** ** Strings, hexadecimal text and digests *)

Lemma append_cons (x : ascii) (a b : string) : String x a +:+ b = String x (a +:+ b).
Proof. reflexivity. Qed.

Lemma append_nil_l (b : string) : "" +:+ b = b.
Proof. reflexivity. Qed.

Lemma append_assoc (a b c : string) : (a +:+ b) +:+ c = a +:+ (b +:+ c).
Proof. induction a as [|x a IH]; [done | by rewrite !append_cons, IH]. Qed.

Lemma append_inv_head (a b c : string) : a +:+ b = a +:+ c → b = c.
Proof.
  induction a as [|x a IH]; [done|]. rewrite !append_cons. intros [= H]. by apply IH.
Qed.

Lemma append_length (a b : string) :
  String.length (a +:+ b) = String.length a + String.length b.
Proof.
  induction a as [|x a IH]; [done|]. rewrite append_cons. simpl. by rewrite IH.
Qed.

(** Two texts of the same length followed by anything: equal wholes have
    equal parts. *)
Lemma append_inv_same_length (a b x y : string) :
  String.length a = String.length b → a +:+ x = b +:+ y → a = b ∧ x = y.
Proof.
  revert b. induction a as [|c a IH]; intros [|c' b]; try done.
  rewrite !append_cons. simpl.
  intros [= Hlen] [= -> Happ]. destruct (IH b Hlen Happ) as [-> ->]. done.
Qed.

Definition unhexDigit (c : ascii) : N :=
  match c with
  | "0" => 0 | "1" => 1 | "2" => 2 | "3" => 3 | "4" => 4 | "5" => 5 | "6" => 6
  | "7" => 7 | "8" => 8 | "9" => 9 | "a" => 10 | "b" => 11 | "c" => 12
  | "d" => 13 | "e" => 14 | _ => 15
  end%char%N.

Definition unhexByte (s : string) : ascii :=
  match s with
  | String hi (String lo _) => ascii_of_N (16 * unhexDigit hi + unhexDigit lo)
  | _ => "000"%char
  end.

Lemma unhexByte_hexByte (c : ascii) : unhexByte (hexByte c) = c.
Proof. by destruct c as [[] [] [] [] [] [] [] []]. Qed.

Lemma hex_cons (c : ascii) (bs : list ascii) : hex (c :: bs) = hexByte c +:+ hex bs.
Proof. done. Qed.

Lemma hex_length (bs : list ascii) : String.length (hex bs) = 2 * length bs.
Proof.
  induction bs as [|c bs IH]; [done|].
  rewrite hex_cons, append_length, IH. simpl. lia.
Qed.

Lemma hex_inj (bs1 bs2 : list ascii) : hex bs1 = hex bs2 → bs1 = bs2.
Proof.
  revert bs2. induction bs1 as [|c1 bs1 IH]; intros [|c2 bs2]; try done.
  rewrite !hex_cons. intros Heq.
  destruct (append_inv_same_length (hexByte c1) (hexByte c2) _ _ eq_refl Heq) as [Hc Hr].
  f_equal; [|by apply IH].
  by rewrite <- (unhexByte_hexByte c1), <- (unhexByte_hexByte c2), Hc.
Qed.

(** No separator occurs in a text. *)
Definition noSlash (s : string) : bool :=
  forallb (λ c, negb (bool_decide (c = filepath.Separator))) (bytes s).

Lemma bytes_append (a b : string) : bytes (a +:+ b) = bytes a ++ bytes b.
Proof.
  induction a as [|x a IH]; [done|]. rewrite append_cons. unfold bytes in *. simpl.
  by rewrite IH.
Qed.

Lemma noSlash_append (a b : string) : noSlash (a +:+ b) = noSlash a && noSlash b.
Proof. unfold noSlash. by rewrite bytes_append, forallb_app. Qed.

Lemma noSlash_hexByte (c : ascii) : noSlash (hexByte c) = true.
Proof. by destruct c as [[] [] [] [] [] [] [] []]. Qed.

Lemma noSlash_hex (bs : list ascii) : noSlash (hex bs) = true.
Proof.
  induction bs as [|c bs IH]; [done|].
  by rewrite hex_cons, noSlash_append, noSlash_hexByte, IH.
Qed.

(** Bytes are finitely many, and so are digests. *)
#[global] Program Instance ascii_finite : Finite ascii :=
  enc_finite nat_of_ascii ascii_of_nat 256 _ _ _.
Next Obligation. apply ascii_nat_embedding. Qed.
Next Obligation. apply nat_ascii_bounded. Qed.
Next Obligation. intros. by apply nat_ascii_embedding. Qed.

(** The text made of [n] letters a. *)
Fixpoint letters (n : nat) : string :=
  match n with
  | 0 => ""
  | S n' => String "a" (letters n')
  end.

Lemma letters_length (n : nat) : String.length (letters n) = n.
Proof. induction n as [|n IH]; simpl; [done | by f_equal]. Qed.

(** Pigeonhole: no function from texts to a finite type is injective. *)
Lemma no_injection_from_strings `{Finite B} (f : string → B) :
  ∃ s1 s2, s1 ≠ s2 ∧ f s1 = f s2.
Proof.
  pose (g := λ i : fin (S (card B)), f (letters (fin_to_nat i))).
  destruct (finite_pigeonhole g) as (i1 & i2 & Hne & Heq).
  - rewrite fin_card. apply Nat.lt_succ_diag_r.
  - exists (letters (fin_to_nat i1)), (letters (fin_to_nat i2)).
    split; [|done].
    intros Hs. apply Hne. apply (inj fin_to_nat).
    apply (f_equal String.length) in Hs.
    by rewrite !letters_length in Hs.
Qed.

(** ** Paths *)

Lemma split_nonempty (p : string) : filepath.split p ≠ [].
Proof.
  induction p as [|c p IH]; simpl; [done|].
  case_bool_decide; [done|]. by destruct (filepath.split p).
Qed.

Lemma split_sep (a b : string) :
  filepath.split (a +:+ String filepath.Separator b) = filepath.split a ++ filepath.split b.
Proof.
  induction a as [|c a IH].
  - reflexivity.
  - rewrite append_cons. simpl. rewrite IH.
    case_bool_decide; [done|].
    pose proof (split_nonempty a). by destruct (filepath.split a).
Qed.

Lemma noSlash_cons (c : ascii) (s : string) :
  noSlash (String c s) = negb (bool_decide (c = filepath.Separator)) && noSlash s.
Proof. reflexivity. Qed.

Lemma split_noSlash (n : string) : noSlash n = true → filepath.split n = [n].
Proof.
  induction n as [|c n IH]; [done|].
  rewrite noSlash_cons. intros [Hc Hn]%andb_true_iff. simpl.
  rewrite bool_decide_false; [by rewrite IH|].
  intros ->. by rewrite bool_decide_true in Hc.
Qed.

Lemma IsAbs_cons (c : ascii) (p : string) :
  filepath.IsAbs (String c p) = bool_decide (c = filepath.Separator).
Proof. reflexivity. Qed.

Lemma IsAbs_noSlash (n : string) : noSlash n = true → filepath.IsAbs n = false.
Proof.
  destruct n as [|c n]; [done|]. rewrite noSlash_cons, IsAbs_cons.
  intros [Hc _]%andb_true_iff. by destruct (bool_decide _).
Qed.

(** A file name: one path element that is kept as it is. *)
Definition plain (n : string) : Prop :=
  noSlash n = true ∧ n ≠ "" ∧ n ≠ "." ∧ n ≠ "..".

Lemma cleanStep_plain rooted out n :
  plain n → filepath.cleanStep rooted out n = n :: out.
Proof.
  intros (_ & H1 & H2 & H3). unfold filepath.cleanStep.
  by rewrite !bool_decide_false.
Qed.

Lemma concat_snoc (sep : string) (l : list string) (n : string) :
  String.concat sep (l ++ [n]) =
    (match l with [] => "" | _ => String.concat sep l +:+ sep end) +:+ n.
Proof.
  induction l as [|x l IH]; [done|].
  destruct l as [|y l].
  { change (x +:+ sep +:+ n = (x +:+ sep) +:+ n). by rewrite append_assoc. }
  change (String.concat sep ((x :: y :: l) ++ [n]))
    with (x +:+ sep +:+ String.concat sep ((y :: l) ++ [n])).
  rewrite IH.
  change (String.concat sep (x :: y :: l)) with (x +:+ sep +:+ String.concat sep (y :: l)).
  by rewrite !append_assoc.
Qed.

(** The directory part of a cleaned path [d/n]. *)
Definition cleanDirPrefix (d : string) : string :=
  let rooted := filepath.IsAbs (d +:+ "/") in
  let out := foldl (filepath.cleanStep rooted) [] (filepath.split d) in
  (if rooted then "/" else "") +:+
  (match rev out with [] => "" | _ => filepath.joinElems out +:+ "/" end).

Lemma Clean_dir_file (d n : string) :
  plain n → filepath.Clean (d +:+ "/" +:+ n) = cleanDirPrefix d +:+ n.
Proof.
  intros Hn. unfold filepath.Clean, cleanDirPrefix.
  rewrite bool_decide_false by by destruct d.
  assert (filepath.IsAbs (d +:+ "/" +:+ n) = filepath.IsAbs (d +:+ "/")) as ->.
  { destruct d as [|c d]; [done|]. by rewrite !append_cons, !IsAbs_cons. }
  change ("/" +:+ n) with (String filepath.Separator n).
  rewrite split_sep, (split_noSlash n) by apply Hn.
  rewrite foldl_app. cbn [foldl]. rewrite cleanStep_plain by done.
  set (out := foldl _ [] (filepath.split d)).
  unfold filepath.joinElems. cbn [rev]. rewrite concat_snoc.
  destruct (filepath.IsAbs (d +:+ "/")).
  - by rewrite append_assoc.
  - rewrite bool_decide_false by done. by rewrite append_nil_l.
Qed.

Lemma Clean_plain (n : string) : plain n → filepath.Clean n = n.
Proof.
  intros Hn. unfold filepath.Clean.
  rewrite bool_decide_false by apply Hn.
  rewrite IsAbs_noSlash, split_noSlash by apply Hn.
  cbn [foldl]. rewrite cleanStep_plain by done.
  by rewrite bool_decide_false.
Qed.

(** The directory part of [filepath.Join wd n]. *)
Definition joinPrefix (wd : string) : string :=
  if bool_decide (wd ≠ "") then cleanDirPrefix wd else "".

Lemma Join_file (wd n : string) :
  plain n → filepath.Join wd n = joinPrefix wd +:+ n.
Proof.
  intros Hn. unfold filepath.Join, joinPrefix. case_bool_decide.
  - by apply Clean_dir_file.
  - rewrite bool_decide_true by apply Hn. by rewrite Clean_plain.
Qed.




(** ** Workspace materializer *)

Lemma plain_cons (c : ascii) (s : string) :
  noSlash (String c s) = true → c ≠ "."%char → plain (String c s).
Proof.
  intros Hs Hc. split_and!; [done | done | |]; intros [= ? ?]; done.
Qed.

Section WorkspaceFacts.

Variable sha256_Sum : string → digest.
Variable world : Type.
Variable MkdirAll : string → N → world → option error * world.
Variable WriteFile : string → string → N → world → option error * world.
Variable Getwd : string + error.
Variable Error_text : error → string.
Variable Sprintf_q : string → string.

Local Abbreviation prepare :=
  (prepareHelmfileFile sha256_Sum world MkdirAll WriteFile Getwd Error_text Sprintf_q).
Local Abbreviation writeValues :=
  (writeValuesFiles sha256_Sum world WriteFile Getwd Error_text).

(** The absolute path of the temp file of one value overlay. *)
Definition valuesPath (workingDirectory : string) (v : iface) : string :=
  (filepath.Abs Getwd
     (filepath.Join workingDirectory (valuesFileName sha256_Sum (Sprintf_s v)))).1.

Lemma plain_manifestFileName content flag :
  plain (manifestFileName sha256_Sum content flag).
Proof.
  unfold manifestFileName. rewrite append_cons. apply plain_cons; [|done].
  rewrite <- append_cons, !noSlash_append, noSlash_hex. by destruct flag.
Qed.


Lemma digest_hex_inj (d1 d2 : digest) (x y : string) :
  hex (vec_to_list d1) +:+ x = hex (vec_to_list d2) +:+ y → d1 = d2 ∧ x = y.
Proof.
  intros Heq. apply append_inv_same_length in Heq as [Hd ->].
  - split; [|done]. by apply vec_to_list_inj2, hex_inj.
  - by rewrite !hex_length, !length_vec_to_list.
Qed.

(** Two manifest names under the same flag agree exactly when the two
    digests agree. *)
Lemma manifestFileName_eq_iff c1 c2 flag :
  manifestFileName sha256_Sum c1 flag = manifestFileName sha256_Sum c2 flag ↔
  sha256_Sum c1 = sha256_Sum c2.
Proof.
  unfold manifestFileName. split.
  - intros Heq%append_inv_head. by apply digest_hex_inj in Heq as [? _].
  - by intros ->.
Qed.


(** A run of the loop that does not stop with an error appended the
    absolute path of every overlay, in order. *)
Lemma writeValuesFiles_ok wd vs acc w paths w' :
  writeValues wd vs acc w = (inr paths, w') →
  paths = acc ++ ((IString ∘ valuesPath wd) <$> vs) ∧
  Forall (λ v, (filepath.Abs Getwd
                  (filepath.Join wd (valuesFileName sha256_Sum (Sprintf_s v)))).2 = None) vs.
Proof.
  revert acc w. induction vs as [|v vs IH]; intros acc w; cbn [writeValuesFiles].
  - intros [= <- <-]. by rewrite app_nil_r.
  - unfold valuesPath.
    destruct (filepath.Abs Getwd _) as [abspath [e|]] eqn:Habs; [done|].
    destruct (WriteFile abspath _ _ w) as [[e|] w1]; [done|].
    intros Hrest. apply IH in Hrest as [-> Hall]. split.
    + rewrite <- app_assoc. cbn [fmap list_fmap app compose]. by rewrite Habs.
    + constructor; [by rewrite Habs | done].
Qed.

(** What a successful call returns and leaves in the spec. *)
Lemma prepareHelmfileFile_ok fs w :
  (prepare fs w).1.1.2 = None →
  (prepare fs w).1.1.1 =
    filepath.Join (rs_WorkingDirectory fs)
      (manifestFileName sha256_Sum (rs_Content fs) (rs_EnableGoTemplate fs)) ∧
  (prepare fs w).1.2 =
    withValues fs SliceNil
      (match elems (rs_Values fs) with
       | [] => rs_ValuesFiles fs
       | _ => Slice (((IString ∘ valuesPath (rs_WorkingDirectory fs)) <$> elems (rs_Values fs))
                     ++ elems (rs_ValuesFiles fs))
       end) ∧
  Forall (λ v, (filepath.Abs Getwd
                  (filepath.Join (rs_WorkingDirectory fs)
                     (valuesFileName sha256_Sum (Sprintf_s v)))).2 = None)
         (elems (rs_Values fs)).
Proof.
  unfold prepareHelmfileFile.
  destruct (if bool_decide (rs_WorkingDirectory fs ≠ "") then _ else _) as [[e|] w1];
    [done|].
  destruct (WriteFile _ _ _ w1) as [[e|] w2]; [done|].
  destruct (writeValuesFiles _ _ _ _ _ _ _ _ w2) as [[e|paths] w3] eqn:Hloop; [done|].
  intros _. cbn [fst snd].
  apply writeValuesFiles_ok in Hloop as [-> Hall]. cbn [app] in *.
  split_and!; [done | | done].
  destruct (elems (rs_Values fs)) as [|v vs]; [done|].
  rewrite bool_decide_true by (cbn; lia). done.
Qed.

(** C10.  A successful call mutates the caller's spec: [Values] is nil
    afterwards; when at least one value overlay was supplied,
    [ValuesFiles] holds the absolute paths of the generated temp value
    files, in the order of [Values], followed by the entries that were
    configured before (and it is left alone when none was supplied);
    every other field is unchanged. *)
Theorem C10_spec_mutated_by_materialization (fs : ReleaseSet) (w : world) :
  (prepare fs w).1.1.2 = None →
  let fs' := (prepare fs w).1.2 in
  rs_Values fs' = SliceNil ∧
  (elems (rs_Values fs) ≠ [] →
     rs_ValuesFiles fs' =
       Slice (((IString ∘ valuesPath (rs_WorkingDirectory fs)) <$> elems (rs_Values fs))
              ++ elems (rs_ValuesFiles fs))) ∧
  (elems (rs_Values fs) = [] → rs_ValuesFiles fs' = rs_ValuesFiles fs) ∧
  rs_Bin fs' = rs_Bin fs ∧
  rs_HelmBin fs' = rs_HelmBin fs ∧
  rs_Content fs' = rs_Content fs ∧
  rs_EnableGoTemplate fs' = rs_EnableGoTemplate fs ∧
  rs_Kubeconfig fs' = rs_Kubeconfig fs ∧
  rs_GeneratedKubeconfig fs' = rs_GeneratedKubeconfig fs ∧
  rs_WorkingDirectory fs' = rs_WorkingDirectory fs ∧
  rs_Selector fs' = rs_Selector fs ∧
  rs_Selectors fs' = rs_Selectors fs ∧
  rs_EnvironmentVariables fs' = rs_EnvironmentVariables fs ∧
  rs_Environment fs' = rs_Environment fs ∧
  rs_Concurrency fs' = rs_Concurrency fs ∧
  rs_ReleasesValues fs' = rs_ReleasesValues fs ∧
  rs_DryRun fs' = rs_DryRun fs ∧
  rs_TmpHelmFilePath fs' = rs_TmpHelmFilePath fs.
Proof.
  intros Hok fs'. subst fs'.
  destruct (prepareHelmfileFile_ok fs w Hok) as (_ & -> & _).
  cbn [withValues rs_Values rs_ValuesFiles rs_Bin rs_HelmBin rs_Content
       rs_EnableGoTemplate rs_Kubeconfig rs_GeneratedKubeconfig rs_WorkingDirectory
       rs_Selector rs_Selectors rs_EnvironmentVariables rs_Environment rs_Concurrency
       rs_ReleasesValues rs_DryRun rs_TmpHelmFilePath].
  split_and!; try reflexivity.
  - intros Hne. by destruct (elems (rs_Values fs)).
  - by intros ->.
Qed.

End WorkspaceFacts.



Section ContentAddressing.

Variable sha256_Sum : string → digest.
Variable world : Type.
Variable MkdirAll : string → N → world → option error * world.
Variable WriteFile : string → string → N → world → option error * world.
Variable Error_text : error → string.
Variable Sprintf_q : string → string.

Local Abbreviation prepareIn getwd :=
  (prepareHelmfileFile sha256_Sum world MkdirAll WriteFile getwd Error_text Sprintf_q).


End ContentAddressing.


(** Why distinct contents are only told apart by their digests: digests
    are 32 bytes long and contents are unbounded, so no hash gives every
    content a path of its own.  The lemma does not exhibit two contents
    that share a digest; none is known for SHA-256. *)
Lemma no_hash_separates_all_contents :
  ¬ ∃ sha256_Sum : string → digest,
      ∀ (fs1 fs2 : ReleaseSet) (w1 w2 : simpleFS),
        let run :=
          prepareHelmfileFile sha256_Sum simpleFS simple_MkdirAll simple_WriteFile
            (inl "/work") simple_Error_text id in
        (run fs1 w1).1.1.2 = None →
        (run fs2 w2).1.1.2 = None →
        rs_WorkingDirectory fs1 = rs_WorkingDirectory fs2 →
        rs_EnableGoTemplate fs1 = rs_EnableGoTemplate fs2 →
        rs_Content fs1 ≠ rs_Content fs2 →
        (run fs1 w1).1.1.1 ≠ (run fs2 w2).1.1.1.
Proof.
  intros [sha Hdistinct].
  destruct (no_injection_from_strings sha) as (c1 & c2 & Hne & Hsha).
  pose (spec := λ content,
    mkReleaseSet "" SliceNil SliceNil "" content false "" "" "" ∅ SliceNil ∅ "" 0 ∅ false "").
  pose (w := mkSimpleFS ∅ ∅).
  assert (∀ content,
    prepareHelmfileFile sha simpleFS simple_MkdirAll simple_WriteFile
      (inl "/work") simple_Error_text id (spec content) w
    = ((filepath.Join "" (manifestFileName sha content false), None),
       withValues (spec content) SliceNil SliceNil,
       mkSimpleFS {[ filepath.Join "" (manifestFileName sha content false) := content ]} ∅))
    as Hrun.
  { intros content. unfold prepareHelmfileFile. cbn [rs_WorkingDirectory spec].
    rewrite bool_decide_false by (by intros ?).
    unfold simple_WriteFile. cbn [sfs_locked w].
    rewrite bool_decide_false by set_solver. done. }
  apply (Hdistinct (spec c1) (spec c2) w w); cbn zeta; rewrite ?Hrun; try done.
  cbn [fst]. f_equal. by apply manifestFileName_eq_iff.
Qed.

(** ** Closed instances *)

(** A stand-in digest for examples: the first byte of the text, padded. *)
Definition firstByteSum (s : string) : digest :=
  match s with
  | String c _ => c
  | EmptyString => "000"%char
  end ::: vreplicate 31 "000"%char.

Definition stackA : ReleaseSet :=
  mkReleaseSet "helmfile" (Slice [IString "namespace: a"; IString "region: b"])
    (Slice [IString "base.yaml"]) "helm" "releases: []" false "/tmp/kubeconfig" ""
    "/work/stack" ∅ SliceNil ∅ "" 0 ∅ false "".


Definition emptyDisk : simpleFS := mkSimpleFS ∅ ∅.

Definition prepareOnDisk : ReleaseSet → simpleFS → (string * option error) * ReleaseSet * simpleFS :=
  prepareHelmfileFile firstByteSum simpleFS simple_MkdirAll simple_WriteFile
    (inl "/work") simple_Error_text id.


(** A spec with a relative working directory and one value overlay. *)
Definition stackRelative : ReleaseSet :=
  mkReleaseSet "helmfile" (Slice [IString "namespace: a"])
    SliceNil "helm" "releases: []" false "/tmp/kubeconfig" ""
    "stack" ∅ SliceNil ∅ "" 0 ∅ false "".

(** [stackRelative] materialized on the empty disk, the current directory
    being [cwd], whatever the hash. *)
Definition prepareStackRelative (sha256_Sum : string → digest) (cwd : string)
  : (string * option error) * ReleaseSet * simpleFS :=
  prepareHelmfileFile sha256_Sum simpleFS simple_MkdirAll simple_WriteFile
    (inl cwd) simple_Error_text id stackRelative emptyDisk.




(** The two paths of the counterexample, under the stand-in digest. *)
Example prepareStackRelative_paths :
  rs_ValuesFiles (prepareStackRelative firstByteSum "/a").1.2
    = Slice [IString "/a/stack/temp.values-6e00000000000000000000000000000000000000000000000000000000000000.yaml"] ∧
  rs_ValuesFiles (prepareStackRelative firstByteSum "/b").1.2
    = Slice [IString "/b/stack/temp.values-6e00000000000000000000000000000000000000000000000000000000000000.yaml"] ∧
  (prepareStackRelative firstByteSum "/a").1.1.1
    = (prepareStackRelative firstByteSum "/b").1.1.1.
Proof. split_and!; by vm_compute. Qed.

(** C10 at a concrete spec. *)
Lemma C10_spec_mutated_by_materialization_witness :
  (prepareOnDisk stackA emptyDisk).1.1.2 = None ∧
  rs_Values (prepareOnDisk stackA emptyDisk).1.2 = SliceNil.
Proof.
  assert ((prepareOnDisk stackA emptyDisk).1.1.2 = None) as HA by (vm_compute; reflexivity).
  split; [exact HA|].
  exact (proj1
    (C10_spec_mutated_by_materialization firstByteSum simpleFS simple_MkdirAll
       simple_WriteFile (inl "/work") simple_Error_text id stackA emptyDisk HA)).
Defined.

(** The files a concrete run names. *)
Example prepareOnDisk_stackA :
  (prepareOnDisk stackA emptyDisk).1.1.1
    = "/work/stack/helmfile-7200000000000000000000000000000000000000000000000000000000000000.yaml" ∧
  rs_ValuesFiles (prepareOnDisk stackA emptyDisk).1.2
    = Slice [IString "/work/stack/temp.values-6e00000000000000000000000000000000000000000000000000000000000000.yaml";
             IString "/work/stack/temp.values-7200000000000000000000000000000000000000000000000000000000000000.yaml";
             IString "base.yaml"].
Proof. split; by vm_compute. Qed.

(** An application that fails after changing the environment itself. *)
Definition failingApp (config : configProvider) (e : os.environ)
  : (string * option error) * os.environ :=
  (("", Some (Errorf "release failed")), <["AWS_PROFILE" := "other"]> e).

Definition parentEnv : os.environ :=
  {[ "HOME" := "/root"; "AWS_PROFILE" := "" ]}.

Definition overrides : gmap string iface :=
  {[ "AWS_PROFILE" := IString "dev"; "KUBE_DEBUG" := IString "1"; "RETRIES" := IOther "%!s(int=3)" "3" ]}.

Lemma parentEnv_wf : os.environ_wf parentEnv.
Proof.
  unfold parentEnv. apply map_Forall_insert_2; [reflexivity|].
  apply map_Forall_insert_2; [reflexivity|]. apply map_Forall_empty.
Defined.

(** C2 at a concrete environment, with a wrapped operation that fails. *)
Lemma C2_environment_roundtrip_witness :
  os.environ_wf parentEnv ∧
  (setEnvironmentVariables (λ V, map_to_list) overrides parentEnv).1
    ((setEnvironmentVariables (λ V, map_to_list) overrides parentEnv).2) = parentEnv.
Proof.
  split; [exact parentEnv_wf|].
  exact (proj1 (proj2 (proj2 (proj2
    (C2_environment_roundtrip (λ V, map_to_list) (λ V m, reflexivity _)
       failingApp (λ _, "map[]") overrides parentEnv parentEnv_wf))))).
Defined.

(** C8 at a concrete environment: HOME is taken up from the parent. *)
Lemma C8_parent_aws_variables_propagated_witness :
  completeEnvVars (λ V, map_to_list) overrides parentEnv !! "HOME" = Some (IString "/root") ∧
  (setEnvironmentVariables (λ V, map_to_list) overrides parentEnv).2 !! "HOME" = Some "/root".
Proof.
  refine (proj1 (proj2 (proj2
    (C8_parent_aws_variables_propagated (λ V, map_to_list) (λ V m, reflexivity _)
       overrides parentEnv "HOME"))) "/root" _ _ _).
  - do 8 apply list_elem_of_further. apply list_elem_of_here.
  - by vm_compute.
  - by vm_compute.
Defined.

(** The environment of the concrete run, before, during and after. *)
Example environment_scoping_run :
  (setEnvironmentVariables (λ V, map_to_list) overrides parentEnv).2
    = {[ "HOME" := "/root"; "AWS_PROFILE" := "dev"; "KUBE_DEBUG" := "1" ]} ∧
  (LibraryExecutor_Diff (λ V, map_to_list) failingApp
     (mkDiffOptions
        (mkBaseOptions "" "" "" "" "" "" ∅ SliceNil SliceNil SliceNil overrides "" "" false)
        0 ∅ true true 3 0) parentEnv).2 = parentEnv.
Proof. split; by vm_compute. Qed.

(** * Further functions of the package *)

(** ** Option builders: [buildBaseOptions] and the per-operation builders *)

Section OptionBuilders.

(** [getKubeconfig] lives in another file of the package; it hands back a
    pointer to the path, or nil, and an error that the builder drops. *)
Variable getKubeconfig : ReleaseSet → option string * option error.

Definition buildBaseOptions (fs : ReleaseSet) (tmpFile : string) : BaseOptions :=
  let '(kubeconfig, _) := getKubeconfig fs in
  let kubeconfigPath :=
    match kubeconfig with
    | Some path => path
    | None => ""
    end in
  {| FileOrDir := tmpFile;
     WorkingDirectory := rs_WorkingDirectory fs;
     Kubeconfig := kubeconfigPath;
     KubeContext := "";
     Namespace := "";
     Environment := rs_Environment fs;
     Selector := rs_Selector fs;
     Selectors := rs_Selectors fs;
     ValuesFiles := rs_ValuesFiles fs;
     Values := rs_Values fs;
     EnvironmentVariables := rs_EnvironmentVariables fs;
     HelmBinary := rs_HelmBin fs;
     HelmfileBinary := rs_Bin fs;
     EnableGoTemplate := rs_EnableGoTemplate fs |}.

Definition buildApplyOptions (fs : ReleaseSet) (tmpFile : string) : ApplyOptions :=
  {| apply_BaseOptions := buildBaseOptions fs tmpFile;
     apply_Concurrency := rs_Concurrency fs;
     apply_ReleasesValues := rs_ReleasesValues fs;
     apply_SuppressSecrets := true;
     apply_SkipDiffOnInstall := true |}.

Definition buildDiffOptions (fs : ReleaseSet) (tmpFile : string) (maxLen : Z)
  : DiffOptions :=
  {| diff_BaseOptions := buildBaseOptions fs tmpFile;
     diff_Concurrency := rs_Concurrency fs;
     diff_ReleasesValues := rs_ReleasesValues fs;
     diff_DetailedExitcode := true;
     diff_SuppressSecrets := true;
     diff_Context := 3;
     diff_MaxDiffOutputLen := maxLen |}.

Definition buildTemplateOptions (fs : ReleaseSet) (tmpFile : string) : TemplateOptions :=
  {| template_BaseOptions := buildBaseOptions fs tmpFile;
     template_Concurrency := rs_Concurrency fs;
     template_IncludeCRDs := true;
     template_OutputDir := "";
     template_OutputDirTemplate := "" |}.

Definition buildDestroyOptions (fs : ReleaseSet) (tmpFile : string) : DestroyOptions :=
  {| destroy_BaseOptions := buildBaseOptions fs tmpFile;
     destroy_Concurrency := rs_Concurrency fs |}.

End OptionBuilders.

(** ** Accessors of the configuration providers *)

(** [convertToStringSlice]: the loop appends the items whose dynamic type
    is [string]. *)
Definition convertToStringSlice (items : slice iface) : list string :=
  foldl (λ result item,
           match assert_string item with
           | Some str => result ++ [str]
           | None => result
           end) [] (elems items).

(** [convertSelectorsToStrings] is the same loop over the selectors. *)
Definition convertSelectorsToStrings (selectors : slice iface) : list string :=
  foldl (λ result selector,
           match assert_string selector with
           | Some str => result ++ [str]
           | None => result
           end) [] (elems selectors).

(** The embedded [baseConfigProvider] of a provider. *)
Definition baseOf (c : configProvider) : baseConfigProvider :=
  match c with
  | applyConfigProvider b _ _ _ => b
  | diffConfigProvider b _ _ _ _ => b
  | templateConfigProvider b _ _ _ _ => b
  | destroyConfigProvider b _ => b
  end.

(** [StateValuesFiles()] and [Selectors()] of [baseConfigProvider]. *)
Definition StateValuesFiles (c : configProvider) : list string :=
  convertToStringSlice (valuesFiles (baseOf c)).

Definition provider_Selectors (c : configProvider) : list string :=
  convertSelectorsToStrings (selectors (baseOf c)).

(** [Values()], which the apply, diff and template providers define and
    the destroy provider does not. *)
Definition provider_Values (c : configProvider) : option (list string) :=
  match c with
  | applyConfigProvider b _ _ _
  | diffConfigProvider b _ _ _ _
  | templateConfigProvider b _ _ _ _ => Some (convertToStringSlice (values b))
  | destroyConfigProvider _ _ => None
  end.

(** ** The earlier [prepareHelmfileFile]

    The version of the materializer that writes the same files and leaves
    the spec alone. *)

Section EarlierWorkspace.

Variable sha256_Sum : string → digest.
Variable world : Type.
Variable MkdirAll : string → N → world → option error * world.
Variable WriteFile : string → string → N → world → option error * world.
Variable Getwd : string + error.
Variable Error_text : error → string.
Variable Sprintf_q : string → string.

Fixpoint writeValuesFiles_earlier (workingDirectory : string) (vs : list iface)
    (w : world) : option error * world :=
  match vs with
  | [] => (None, w)
  | v :: vs' =>
      let js := Sprintf_s v in
      let relpath :=
        filepath.Join workingDirectory (valuesFileName sha256_Sum js) in
      let '(abspath, err) := filepath.Abs Getwd relpath in
      match err with
      | Some e =>
          (Some (Errorf ("getting absolute path to " +:+ abspath +:+ ": "
                         +:+ Error_text e)), w)
      | None =>
          let '(err, w1) := WriteFile abspath js 448 w in
          match err with
          | Some e => (Some e, w1)
          | None => writeValuesFiles_earlier workingDirectory vs' w1
          end
      end
  end.

Definition prepareHelmfileFile_earlier (fs : ReleaseSet) (w : world)
  : (string * option error) * world :=
  let '(mkerr, w1) :=
    if bool_decide (rs_WorkingDirectory fs ≠ "")
    then MkdirAll (rs_WorkingDirectory fs) 493 w
    else (None, w) in
  match mkerr with
  | Some e =>
      (("", Some (Errorf ("creating working directory "
                          +:+ Sprintf_q (rs_WorkingDirectory fs) +:+ ": "
                          +:+ Error_text e))), w1)
  | None =>
      let bs := rs_Content fs in
      let tmpFile := manifestFileName sha256_Sum bs (rs_EnableGoTemplate fs) in
      let tmpFilePath := filepath.Join (rs_WorkingDirectory fs) tmpFile in
      let '(err, w2) := WriteFile tmpFilePath bs 448 w1 in
      match err with
      | Some e => (("", Some e), w2)
      | None =>
          match writeValuesFiles_earlier (rs_WorkingDirectory fs)
                  (elems (rs_Values fs)) w2 with
          | (Some e, w3) => (("", Some e), w3)
          | (None, w3) => ((tmpFilePath, None), w3)
          end
      end
  end.

End EarlierWorkspace.

(** ** Credential provisioner: discovery and persistence *)

(** The part of the answer of the describe call that is read. *)
Record Certificate := mkCertificate {
  cert_Data : option string
}.

Record eksCluster := mkEksCluster {
  eks_Endpoint : option string;
  eks_CertificateAuthority : option Certificate
}.

Record DescribeClusterOutput := mkDescribeClusterOutput {
  out_Cluster : option eksCluster
}.

Section Discovery.

(** Collaborators: the session of the SDK context (nil when credentials
    are not configured) and the describe call of the EKS client made for
    a region. *)
Variable session : Type.
Variable ctx_Session : option session.
Variable DescribeCluster : session → string → string → DescribeClusterOutput + error.
Variable Error_text : error → string.

(** [fetchEKSClusterInfo]: the configuration or the error, and the lines
    logged. *)
Definition fetchEKSClusterInfo (clusterName region : string)
  : (option EKSClusterConfig * option error) * list string :=
  let log := ["Fetching EKS cluster info for cluster: " +:+ clusterName
              +:+ " in region: " +:+ region] in
  match ctx_Session with
  | None =>
      ((None, Some (Errorf "AWS session is nil - ensure AWS credentials are configured")),
       log)
  | Some sess =>
      match DescribeCluster sess region clusterName with
      | inr err =>
          ((None, Some (Errorf ("describing EKS cluster " +:+ clusterName +:+ ": "
                                +:+ Error_text err))), log)
      | inl result =>
          match out_Cluster result with
          | None =>
              ((None, Some (Errorf ("EKS cluster " +:+ clusterName
                                    +:+ " not found in region " +:+ region))), log)
          | Some cluster =>
              match eks_Endpoint cluster with
              | None | Some "" =>
                  ((None, Some (Errorf ("EKS cluster " +:+ clusterName
                                        +:+ " has no endpoint"))), log)
              | Some endpoint =>
                  match eks_CertificateAuthority cluster with
                  | None | Some (mkCertificate None) | Some (mkCertificate (Some "")) =>
                      ((None, Some (Errorf ("EKS cluster " +:+ clusterName
                                            +:+ " has no certificate authority data"))),
                       log)
                  | Some (mkCertificate (Some data)) =>
                      let config := mkEKSClusterConfig clusterName region endpoint data "" in
                      ((Some config, None),
                       log ++ ["Successfully fetched EKS cluster info: endpoint="
                               +:+ Endpoint config])
                  end
              end
          end
      end
  end.

End Discovery.

Section Persistence.

(** Collaborators: the random source ([rand.Read] on four bytes), the
    system's temp directory, and the file system. *)
Variable rand_Read : vec ascii 4 + error.
Variable TempDir : string.
Variable world : Type.
Variable WriteFile : string → string → N → world → option error * world.
Variable Error_text : error → string.

(** [writeTemporaryKubeconfig]: the path and error, the file system left,
    and the lines logged.  [hex.EncodeToString] writes the same two
    lower-case digits per byte as the verb [%x]. *)
Definition writeTemporaryKubeconfig (kubeconfigYAML workingDir clusterName : string)
    (w : world) : (string * option error) * world * list string :=
  match rand_Read with
  | inr err =>
      (("", Some (Errorf ("generating random suffix: " +:+ Error_text err))), w, [])
  | inl randomBytes =>
      let randomSuffix := hex (vec_to_list randomBytes) in
      let dir :=
        if bool_decide (workingDir = "" ∨ workingDir = ".") then TempDir
        else workingDir in
      let filename :=
        ".terraform-helmfile-kubeconfig-" +:+ clusterName +:+ "-" +:+ randomSuffix in
      let filePath := filepath.Join dir filename in
      let '(err, w') := WriteFile filePath kubeconfigYAML 384 w in
      match err with
      | Some e =>
          (("", Some (Errorf ("writing kubeconfig to " +:+ filePath +:+ ": "
                              +:+ Error_text e))), w', [])
      | None =>
          ((filePath, None), w', ["Generated temporary kubeconfig at: " +:+ filePath])
      end
  end.

End Persistence.

(** ** Output capture *)

(** [OutputCapture]: the buffer behind the capture logger (the mutex
    orders the calls; the calls themselves are modelled here). *)
Record OutputCapture := mkOutputCapture {
  buffer : string
}.

Definition NewOutputCapture : OutputCapture := mkOutputCapture "".

(** [Write] appends to the buffer and reports the number of bytes taken. *)
Definition capture_Write (o : OutputCapture) (p : string)
  : OutputCapture * (Z * option error) :=
  (mkOutputCapture (buffer o +:+ p), (Z.of_nat (String.length p), None)).

Definition capture_String (o : OutputCapture) : string := buffer o.

Definition capture_Reset (o : OutputCapture) : OutputCapture := mkOutputCapture "".

(** ** [BinaryExecutor.Version] *)

(** [strings.Split(s, sep)] for a separator of one byte. *)
Fixpoint splitOn (sep : ascii) (s : string) : list string :=
  match s with
  | EmptyString => [""]
  | String c rest =>
      if bool_decide (c = sep) then "" :: splitOn sep rest
      else match splitOn sep rest with
           | part :: parts => String c part :: parts
           | [] => [String c ""]
           end
  end.

(** [strings.TrimPrefix(s, "v")] *)
Definition TrimPrefix_v (s : string) : string :=
  match s with
  | String "v" rest => rest
  | _ => s
  end.

Section BinaryVersion.

Variable CombinedOutput : Cmd → string * option error.
Variable Error_text : error → string.
(** [strings.TrimSpace], which cuts the white space of Unicode off both ends. *)
Variable TrimSpace : string → string.

Definition BinaryExecutor_Version : string * option error :=
  let cmd := mkCmd "helmfile" ["version"] "" [] in
  let '(output, err) := CombinedOutput cmd in
  match err with
  | Some e => ("", Some (Errorf ("getting helmfile version: " +:+ Error_text e)))
  | None =>
      let version := TrimSpace output in
      let parts := splitOn " " version in
      let version :=
        if bool_decide (0 < length parts)
        then TrimPrefix_v (List.last parts "")
        else version in
      (version, None)
  end.

End BinaryVersion.

(** * Properties of the further functions *)

(** ** Environment scoping, continued *)

Section EnvironmentScopingMore.

Variable range : ∀ V : Type, gmap string V → list (string * V).
Hypothesis range_visits_all : ∀ V (m : gmap string V), range V m ≡ₚ map_to_list m.

Lemma setEnvironmentVariables_lookup envVars (e0 : os.environ) k :
  (setEnvironmentVariables range envVars e0).2 !! k =
    match completeEnvVars range envVars e0 !! k with
    | Some (IString s) => os.Setenv k s e0 !! k
    | _ => e0 !! k
    end.
Proof.
  rewrite (setEnvironmentVariables_unfold range). cbn [snd].
  by destruct (setEnvironmentVariablesSaved_spec range range_visits_all envVars e0)
    as (_ & _ & ->).
Qed.

Lemma setEnvironmentVariables_wf envVars (e0 : os.environ) :
  os.environ_wf e0 → os.environ_wf (setEnvironmentVariables range envVars e0).2.
Proof.
  intros Hwf k v. rewrite setEnvironmentVariables_lookup.
  destruct (completeEnvVars range envVars e0 !! k) as [[s|r r']|]; try apply Hwf.
  rewrite Setenv_lookup, decide_True by done.
  destruct (os.key_ok k && os.value_ok s) eqn:Hok; [|apply Hwf].
  by intros [= <-].
Qed.

(** X1.  Setting the variables keeps the environment table sound and
    never takes a variable away: every entry of the table during the call
    is one the system accepts, and every variable that was present before
    the call is present during it. *)
Theorem setEnvironmentVariables_sound_and_monotone
    (envVars : gmap string iface) (e0 : os.environ) :
  os.environ_wf e0 →
  os.environ_wf (setEnvironmentVariables range envVars e0).2 ∧
  (∀ k, is_Some (e0 !! k) →
        is_Some ((setEnvironmentVariables range envVars e0).2 !! k)).
Proof.
  intros Hwf. split; [by apply setEnvironmentVariables_wf|].
  intros k Hk. rewrite setEnvironmentVariables_lookup.
  destruct (completeEnvVars range envVars e0 !! k) as [[s|r r']|]; try done.
  rewrite Setenv_lookup, decide_True by done.
  by destruct (os.key_ok k && os.value_ok s).
Qed.

(** X2.  The restoration action is idempotent: running it a second time
    changes nothing, whatever environment it is run on. *)
Theorem restoreEnv_idempotent (envVars : gmap string iface) (e0 e2 : os.environ) :
  os.environ_wf e0 →
  (setEnvironmentVariables range envVars e0).1
    ((setEnvironmentVariables range envVars e0).1 e2)
  = (setEnvironmentVariables range envVars e0).1 e2.
Proof.
  intros Hwf. apply map_eq. intros k.
  destruct (completeEnvVars range envVars e0 !! k) as [v|] eqn:Hk.
  - rewrite !(restoreEnv_affected range range_visits_all) by (done || by rewrite Hk).
    done.
  - by rewrite (restoreEnv_frame range range_visits_all _ _ (_ e2)).
Qed.

(** X3.  Scopes nest: setting a first map, then a second one inside it,
    then restoring the second and the first, gives back the environment
    before the first call. *)
Theorem setEnvironmentVariables_nested
    (outer inner : gmap string iface) (e0 : os.environ) :
  os.environ_wf e0 →
  (setEnvironmentVariables range inner (setEnvironmentVariables range outer e0).2).1
    (setEnvironmentVariables range inner (setEnvironmentVariables range outer e0).2).2
  = (setEnvironmentVariables range outer e0).2 ∧
  (setEnvironmentVariables range outer e0).1
    ((setEnvironmentVariables range inner (setEnvironmentVariables range outer e0).2).1
       (setEnvironmentVariables range inner (setEnvironmentVariables range outer e0).2).2)
  = e0.
Proof.
  intros Hwf.
  pose proof (restoreEnv_roundtrip range range_visits_all outer e0 Hwf) as Houter.
  pose proof (setEnvironmentVariables_wf outer e0 Hwf) as Hwf1.
  pose proof (restoreEnv_roundtrip range range_visits_all inner _ Hwf1) as Hinner.
  split; [exact Hinner|]. rewrite Hinner. exact Houter.
Qed.

End EnvironmentScopingMore.

Definition innerOverrides : gmap string iface := {[ "HOME" := IString "/tmp/home" ]}.

Lemma setEnvironmentVariables_sound_and_monotone_witness :
  os.environ_wf parentEnv ∧
  os.environ_wf (setEnvironmentVariables (λ V, map_to_list) overrides parentEnv).2.
Proof.
  split; [exact parentEnv_wf|].
  exact (proj1 (setEnvironmentVariables_sound_and_monotone (λ V, map_to_list)
                  (λ V m, reflexivity _) overrides parentEnv parentEnv_wf)).
Defined.

Lemma restoreEnv_idempotent_witness :
  os.environ_wf parentEnv ∧
  (setEnvironmentVariables (λ V, map_to_list) overrides parentEnv).1
    ((setEnvironmentVariables (λ V, map_to_list) overrides parentEnv).1 ∅)
  = (setEnvironmentVariables (λ V, map_to_list) overrides parentEnv).1 ∅.
Proof.
  split; [exact parentEnv_wf|].
  exact (restoreEnv_idempotent (λ V, map_to_list) (λ V m, reflexivity _)
           overrides parentEnv ∅ parentEnv_wf).
Defined.

Lemma setEnvironmentVariables_nested_witness :
  os.environ_wf parentEnv ∧
  (setEnvironmentVariables (λ V, map_to_list) innerOverrides
     (setEnvironmentVariables (λ V, map_to_list) overrides parentEnv).2).1
    (setEnvironmentVariables (λ V, map_to_list) innerOverrides
       (setEnvironmentVariables (λ V, map_to_list) overrides parentEnv).2).2
  = (setEnvironmentVariables (λ V, map_to_list) overrides parentEnv).2.
Proof.
  split; [exact parentEnv_wf|].
  exact (proj1 (setEnvironmentVariables_nested (λ V, map_to_list) (λ V m, reflexivity _)
                  overrides innerOverrides parentEnv parentEnv_wf)).
Defined.


(** ** Accessors of the configuration providers *)

Lemma convertToStringSlice_omap (items : slice iface) :
  convertToStringSlice items = omap assert_string (elems items).
Proof.
  unfold convertToStringSlice.
  assert (∀ l acc,
    foldl (λ result item,
             match assert_string item with
             | Some str => result ++ [str]
             | None => result
             end) acc l = acc ++ omap assert_string l) as Hgen.
  { induction l as [|x l IH]; intros acc; cbn [foldl omap list_omap].
    - by rewrite app_nil_r.
    - rewrite IH. destruct (assert_string x); [by rewrite <- app_assoc | done]. }
  by rewrite Hgen.
Qed.

Lemma omap_assert_string_strings (l : list string) :
  omap assert_string (IString <$> l) = l.
Proof. induction l as [|x l IH]; [done|]. cbn. by rewrite IH. Qed.

Lemma omap_assert_string_length (l : list iface) :
  length (omap assert_string l) ≤ length l ∧
  (length (omap assert_string l) = length l ↔ Forall (λ v, is_Some (assert_string v)) l).
Proof.
  induction l as [|x l [IHle IHeq]]; cbn.
  - split; [lia|]. split; [by constructor | done].
  - destruct (assert_string x) as [s|] eqn:Hx; cbn.
    + split; [lia|]. split.
      * intros [= Hlen]. constructor; [by rewrite Hx | by apply IHeq].
      * intros Hall. apply Forall_cons in Hall as [_ Hall]. f_equal. by apply IHeq.
    + split; [lia|]. split; [lia|].
      intros Hall. apply Forall_cons in Hall as [[? Hs] _]. by rewrite Hx in Hs.
Qed.

(** X4.  [convertToStringSlice] keeps exactly the items that are strings,
    in their order, and silently drops every other item: a slice of
    strings comes back unchanged, the result is never longer than the
    input, and it is as long as the input exactly when every item is a
    string.  [convertSelectorsToStrings] is the same function. *)
Theorem convertToStringSlice_keeps_strings (items : slice iface) :
  convertToStringSlice items = omap assert_string (elems items) ∧
  convertSelectorsToStrings items = convertToStringSlice items ∧
  (∀ strs, elems items = IString <$> strs → convertToStringSlice items = strs) ∧
  length (convertToStringSlice items) ≤ length (elems items) ∧
  (length (convertToStringSlice items) = length (elems items) ↔
   Forall (λ v, ∃ s, v = IString s) (elems items)) ∧
  (∀ before r r' after,
     elems items = before ++ IOther r r' :: after →
     convertToStringSlice items =
       convertToStringSlice (Slice before) ++ convertToStringSlice (Slice after)).
Proof.
  rewrite !convertToStringSlice_omap. split_and!.
  - done.
  - unfold convertSelectorsToStrings.
    by rewrite <- convertToStringSlice_omap.
  - intros strs ->. apply omap_assert_string_strings.
  - apply omap_assert_string_length.
  - rewrite (proj2 (omap_assert_string_length _)).
    apply Forall_proper; [|done]. intros [s|r r']; cbn.
    + split; [by eexists | by eexists].
    + split; [by intros [? ?] | by intros [? ?]].
  - intros before r r' after ->. rewrite !convertToStringSlice_omap. cbn [elems].
    by rewrite omap_app.
Qed.

(** ** Workspace materializer, continued *)

Section WorkspaceMore.

Variable sha256_Sum : string → digest.
Variable world : Type.
Variable MkdirAll : string → N → world → option error * world.
Variable WriteFile : string → string → N → world → option error * world.
Variable Getwd : string + error.
Variable Error_text : error → string.
Variable Sprintf_q : string → string.
Variable getKubeconfig : ReleaseSet → option string * option error.
Variable range : ∀ V : Type, gmap string V → list (string * V).

Local Abbreviation prepare :=
  (prepareHelmfileFile sha256_Sum world MkdirAll WriteFile Getwd Error_text Sprintf_q).
Local Abbreviation prepare_earlier :=
  (prepareHelmfileFile_earlier sha256_Sum world MkdirAll WriteFile Getwd Error_text
     Sprintf_q).
Local Abbreviation valuesPathOf := (valuesPath sha256_Sum Getwd).
Local Abbreviation providerOf fs w :=
  (newBaseConfigProvider
     (buildBaseOptions getKubeconfig (prepare fs w).1.2 (prepare fs w).1.1.1)).

(** X5.  A failed materialization leaves the caller's spec exactly as it
    was and returns the empty path: the spec is only written to after the
    manifest and every value file were written. *)
Theorem prepareHelmfileFile_failure_leaves_spec (fs : ReleaseSet) (w : world) :
  (prepare fs w).1.1.2 ≠ None →
  (prepare fs w).1.2 = fs ∧ (prepare fs w).1.1.1 = "".
Proof.
  unfold prepareHelmfileFile.
  destruct (if bool_decide (rs_WorkingDirectory fs ≠ "") then _ else _) as [[e|] w1];
    [done|].
  destruct (WriteFile _ _ _ w1) as [[e|] w2]; [done|].
  destruct (writeValuesFiles _ _ _ _ _ _ _ _ w2) as [[e|paths] w3]; [done|].
  by intros [].
Qed.

Lemma withValues_same (fs : ReleaseSet) :
  withValues fs (rs_Values fs) (rs_ValuesFiles fs) = fs.
Proof. by destruct fs. Qed.

(** X6.  Materializing an already materialized spec again returns the
    same manifest path and leaves the spec as it is: the value files
    recorded by the first call are neither written nor recorded twice. *)
Theorem prepareHelmfileFile_again (fs : ReleaseSet) (w w2 : world) :
  (prepare fs w).1.1.2 = None →
  (prepare (prepare fs w).1.2 w2).1.1.2 = None →
  (prepare (prepare fs w).1.2 w2).1.1.1 = (prepare fs w).1.1.1 ∧
  (prepare (prepare fs w).1.2 w2).1.2 = (prepare fs w).1.2.
Proof.
  intros Hok1 Hok2.
  destruct (prepareHelmfileFile_ok sha256_Sum world MkdirAll WriteFile Getwd Error_text
              Sprintf_q _ _ Hok2) as (Hp2 & Hfs2 & _).
  destruct (prepareHelmfileFile_ok sha256_Sum world MkdirAll WriteFile Getwd Error_text
              Sprintf_q _ _ Hok1) as (Hp1 & Hfs1 & _).
  rewrite Hp2, Hfs2. rewrite Hfs1 at 1 2 3 4 5 6. cbn [withValues rs_WorkingDirectory
    rs_Content rs_EnableGoTemplate rs_Values rs_ValuesFiles elems].
  split; [by rewrite Hp1|].
  rewrite Hfs1. reflexivity.
Qed.

Lemma writeValuesFiles_earlier_same wd vs acc w :
  (writeValuesFiles_earlier sha256_Sum world WriteFile Getwd Error_text wd vs w).1 =
    match (writeValuesFiles sha256_Sum world WriteFile Getwd Error_text wd vs acc w).1 with
    | inl e => Some e
    | inr _ => None
    end ∧
  (writeValuesFiles_earlier sha256_Sum world WriteFile Getwd Error_text wd vs w).2 =
    (writeValuesFiles sha256_Sum world WriteFile Getwd Error_text wd vs acc w).2.
Proof.
  revert acc w. induction vs as [|v vs IH]; intros acc w;
    cbn [writeValuesFiles writeValuesFiles_earlier]; [done|].
  destruct (filepath.Abs Getwd _) as [abspath [e|]]; [done|].
  destruct (WriteFile abspath _ _ w) as [[e|] w1]; [done|].
  apply IH.
Qed.

(** X7.  The two versions of the materializer agree on everything but the
    spec: for every spec and every system they return the same path and
    error and leave the same files behind. *)
Theorem prepareHelmfileFile_versions_agree (fs : ReleaseSet) (w : world) :
  (prepare fs w).1.1 = (prepare_earlier fs w).1 ∧
  (prepare fs w).2 = (prepare_earlier fs w).2.
Proof.
  unfold prepareHelmfileFile, prepareHelmfileFile_earlier.
  destruct (if bool_decide (rs_WorkingDirectory fs ≠ "") then _ else _) as [[e|] w1];
    [done|].
  destruct (WriteFile _ _ _ w1) as [[e|] w2]; [done|].
  destruct (writeValuesFiles_earlier_same (rs_WorkingDirectory fs)
              (elems (rs_Values fs)) [] w2) as [He Hw].
  destruct (writeValuesFiles_earlier _ _ _ _ _ _ _ w2) as [err3 w3].
  destruct (writeValuesFiles _ _ _ _ _ _ _ _ w2) as [[e|paths] w3'];
    cbn [fst snd] in *; subst; done.
Qed.

Lemma flat_map_fmap_pair {A} (flag : string) (g : A → string) (l : list A) :
  flat_map (λ x, [flag; g x]) l = flat_map (λ p, [flag; p]) (g <$> l).
Proof. induction l as [|x l IH]; [done|]. cbn. by rewrite IH. Qed.

Lemma Join_file_nonempty wd n : plain n → filepath.Join wd n ≠ "".
Proof.
  intros Hn. rewrite Join_file by done. destruct Hn as (_ & Hne & _).
  destruct (joinPrefix wd); [by rewrite append_nil_l | by rewrite append_cons].
Qed.

(** X8.  After a successful materialization, the command line that the
    subprocess executor builds from the spec names the manifest with
    [--file], and ends with one [--state-values-file] pair per value
    overlay, in the order the overlays were supplied, followed by one
    pair per value file that was configured before. *)
Theorem materialized_command_line (fs : ReleaseSet) (w : world) :
  (prepare fs w).1.1.2 = None →
  ∃ front,
    buildBaseArgs range
      (buildBaseOptions getKubeconfig (prepare fs w).1.2 (prepare fs w).1.1.1)
    = ["--no-color"; "--file"; (prepare fs w).1.1.1] ++ front
      ++ flat_map (λ p, ["--state-values-file"; p])
           ((valuesPathOf (rs_WorkingDirectory fs) <$> elems (rs_Values fs))
            ++ (Sprintf_v <$> elems (rs_ValuesFiles fs))).
Proof.
  intros Hok.
  destruct (prepareHelmfileFile_ok sha256_Sum world MkdirAll WriteFile Getwd Error_text
              Sprintf_q _ _ Hok) as (Hp & Hfs & _).
  assert ((prepare fs w).1.1.1 ≠ "") as Hne.
  { rewrite Hp. apply Join_file_nonempty, plain_manifestFileName. }
  assert (elems (rs_ValuesFiles (prepare fs w).1.2) =
            ((IString ∘ valuesPathOf (rs_WorkingDirectory fs)) <$> elems (rs_Values fs))
            ++ elems (rs_ValuesFiles fs)) as Hvf.
  { rewrite Hfs. cbn [withValues rs_ValuesFiles].
    by destruct (elems (rs_Values fs)). }
  unfold buildBaseArgs, buildBaseOptions.
  destruct (getKubeconfig _) as [kubeconfig err].
  cbn [FileOrDir HelmBinary Environment Selector Selectors ValuesFiles].
  rewrite Hvf. rewrite bool_decide_false by (by intros ?). cbn [negb flag_if].
  exists (flag_if (negb (bool_decide (rs_HelmBin (prepare fs w).1.2 = "")))
            ["--helm-binary"; rs_HelmBin (prepare fs w).1.2]
          ++ flag_if (negb (bool_decide (rs_Environment (prepare fs w).1.2 = "")))
               ["--environment"; rs_Environment (prepare fs w).1.2]
          ++ flat_map (λ kv, ["--selector"; kv.1 +:+ "=" +:+ Sprintf_s kv.2])
               (range _ (rs_Selector (prepare fs w).1.2))
          ++ flat_map (λ selector, ["--selector"; Sprintf_s selector])
               (elems (rs_Selectors (prepare fs w).1.2))).
  rewrite (flat_map_fmap_pair "--state-values-file" Sprintf_v).
  rewrite fmap_app, <- list_fmap_compose.
  by rewrite <- !app_assoc.
Qed.

(** X9.  After a successful materialization, the configuration provider
    that the in-process executor builds from the spec hands the
    application no inline values, the manifest path as its file, and as
    state values files the generated paths, in the order the overlays
    were supplied, followed by the configured value files that are
    strings. *)
Theorem materialized_provider (fs : ReleaseSet) (w : world) :
  (prepare fs w).1.1.2 = None →
  fileOrDir (providerOf fs w) = (prepare fs w).1.1.1 ∧
  convertToStringSlice (values (providerOf fs w)) = [] ∧
  convertToStringSlice (valuesFiles (providerOf fs w)) =
    (valuesPathOf (rs_WorkingDirectory fs) <$> elems (rs_Values fs))
    ++ convertToStringSlice (rs_ValuesFiles fs).
Proof.
  intros Hok.
  destruct (prepareHelmfileFile_ok sha256_Sum world MkdirAll WriteFile Getwd Error_text
              Sprintf_q _ _ Hok) as (_ & Hfs & _).
  unfold buildBaseOptions. destruct (getKubeconfig _) as [kubeconfig err].
  cbn [newBaseConfigProvider fileOrDir values valuesFiles FileOrDir Values ValuesFiles].
  rewrite !convertToStringSlice_omap, Hfs. cbn [withValues rs_Values rs_ValuesFiles elems].
  split_and!; [done | done |].
  destruct (elems (rs_Values fs)) as [|v vs]; [done|].
  cbn [elems]. rewrite omap_app. f_equal.
  rewrite list_fmap_compose. apply omap_assert_string_strings.
Qed.

End WorkspaceMore.


(** ** Credential provisioner, continued *)

Section DiscoveryFacts.

Variable session : Type.
Variable ctx_Session : option session.
Variable DescribeCluster : session → string → string → DescribeClusterOutput + error.
Variable Error_text : error → string.

Local Abbreviation fetch :=
  (fetchEKSClusterInfo session ctx_Session DescribeCluster Error_text).

(** X10.  [fetchEKSClusterInfo] hands back either a configuration or an
    error, never both and never neither.  It succeeds exactly when there
    is a session, the describe call answers with a cluster, and that
    cluster has a non-empty endpoint and non-empty certificate authority
    data.  The configuration then carries the name and region that were
    asked for, the endpoint and data of the answer, and no profile, so
    that a kubeconfig rendered from it as it is has no exec environment
    entry. *)
Theorem fetchEKSClusterInfo_outcomes (clusterName region : string) :
  let ret := (fetch clusterName region).1 in
  (ret.1 = None ↔ ret.2 ≠ None) ∧
  (ret.2 = None ↔
     ∃ sess cluster endpoint data,
       ctx_Session = Some sess ∧
       DescribeCluster sess region clusterName
         = inl (mkDescribeClusterOutput (Some cluster)) ∧
       eks_Endpoint cluster = Some endpoint ∧ endpoint ≠ "" ∧
       eks_CertificateAuthority cluster = Some (mkCertificate (Some data)) ∧
       data ≠ "" ∧
       ret.1 = Some (mkEKSClusterConfig clusterName region endpoint data "")) ∧
  (∀ config, ret.1 = Some config →
     Endpoint config ≠ "" ∧ CA config ≠ "" ∧
     ∀ u, u ∈ Users (buildKubeconfig config) → Env (Exec (User u)) = []).
Proof.
  intros ret. subst ret. unfold fetchEKSClusterInfo.
  destruct ctx_Session as [sess|].
  2:{ cbn. split_and!; [done | | done]. split; [done|]. by intros (? & ? & ? & ? & ? & _). }
  destruct (DescribeCluster sess region clusterName) as [[[cluster|]]|err] eqn:Hd.
  2:{ cbn. split_and!; [done | | done]. split; [done|].
      intros (? & ? & ? & ? & [= <-] & Hd' & _). by rewrite Hd in Hd'. }
  2:{ cbn. split_and!; [done | | done]. split; [done|].
      intros (? & ? & ? & ? & [= <-] & Hd' & _). by rewrite Hd in Hd'. }
  cbn [out_Cluster].
  destruct cluster as [endpoint ca]. cbn [eks_Endpoint eks_CertificateAuthority].
  destruct endpoint as [[|c endpoint]|].
  1,3: cbn; split_and!; [done | | done]; (split; [done|]);
       intros (? & ? & ? & ? & [= <-] & Hd' & He & Hne & _); rewrite Hd in Hd';
       injection Hd' as <-; cbn in He; by simplify_eq.
  destruct ca as [[[[|c' data]|]]|].
  1,3,4: cbn; split_and!; [done | | done]; (split; [done|]);
       intros (? & ? & ? & ? & [= <-] & Hd' & _ & _ & Hca & Hne & _); rewrite Hd in Hd';
       injection Hd' as <-; cbn in Hca; by simplify_eq.
  cbn. split_and!.
  - done.
  - split; [|done]. intros _. eexists sess, _, _, _. by split_and!.
  - intros config [= <-]. split_and!; [done | done |].
    by intros u ->%list_elem_of_singleton.
Qed.

End DiscoveryFacts.

Lemma plain_dot_name (s : string) :
  noSlash s = true → plain (".terraform-helmfile-kubeconfig-" +:+ s).
Proof.
  intros Hs. split_and!; [by rewrite noSlash_append, Hs | done | done | done].
Qed.

Section PersistenceFacts.

Variable TempDir : string.
Variable world : Type.
Variable WriteFile : string → string → N → world → option error * world.
Variable Error_text : error → string.

Local Abbreviation persist rand :=
  (writeTemporaryKubeconfig rand TempDir world WriteFile Error_text).

(** The directory [writeTemporaryKubeconfig] writes to. *)
Definition kubeconfigDir (workingDir : string) : string :=
  if bool_decide (workingDir = "" ∨ workingDir = ".") then TempDir else workingDir.

Lemma writeTemporaryKubeconfig_ok r yaml wd cluster w :
  noSlash cluster = true →
  (persist (inl r) yaml wd cluster w).1.1.2 = None →
  (persist (inl r) yaml wd cluster w).1.1.1 =
    joinPrefix (kubeconfigDir wd) +:+ ".terraform-helmfile-kubeconfig-" +:+ cluster
      +:+ "-" +:+ hex (vec_to_list r) ∧
  WriteFile (persist (inl r) yaml wd cluster w).1.1.1 yaml 384 w =
    (None, (persist (inl r) yaml wd cluster w).1.2).
Proof.
  intros Hc. unfold writeTemporaryKubeconfig. fold (kubeconfigDir wd).
  assert (plain (".terraform-helmfile-kubeconfig-" +:+ cluster +:+ "-"
                 +:+ hex (vec_to_list r))) as Hplain.
  { apply plain_dot_name. by rewrite !noSlash_append, Hc, noSlash_hex. }
  rewrite Join_file by done.
  destruct (WriteFile _ yaml 384 w) as [[e|] w'] eqn:Hw; [done|].
  intros _. cbn [fst snd]. by rewrite Hw.
Qed.

(** X11.  [writeTemporaryKubeconfig] writes under the working directory,
    or under the system's temp directory when the working directory is
    empty or ".", to a file named .terraform-helmfile-kubeconfig-<cluster
    name>-<eight hexadecimal digits>, handing the content to the system
    with owner-only permission (0600); on success it returns that path.
    When the random source fails nothing is written, and on every failure
    the returned path is empty. *)
Theorem writeTemporaryKubeconfig_path
    (rand : vec ascii 4 + error) (yaml wd cluster : string) (w : world) :
  noSlash cluster = true →
  (∀ r, rand = inl r → (persist rand yaml wd cluster w).1.1.2 = None →
     (persist rand yaml wd cluster w).1.1.1 =
       joinPrefix (kubeconfigDir wd) +:+ ".terraform-helmfile-kubeconfig-" +:+ cluster
         +:+ "-" +:+ hex (vec_to_list r) ∧
     String.length (hex (vec_to_list r)) = 8 ∧
     WriteFile (persist rand yaml wd cluster w).1.1.1 yaml 384 w
       = (None, (persist rand yaml wd cluster w).1.2)) ∧
  (∀ err, rand = inr err →
     (persist rand yaml wd cluster w).1.1.2 ≠ None ∧
     (persist rand yaml wd cluster w).1.2 = w) ∧
  ((persist rand yaml wd cluster w).1.1.2 ≠ None →
     (persist rand yaml wd cluster w).1.1.1 = "") ∧
  persist rand yaml "" cluster w = persist rand yaml "." cluster w.
Proof.
  intros Hc. split_and!.
  - intros r -> Hok.
    destruct (writeTemporaryKubeconfig_ok r yaml wd cluster w Hc Hok) as [Hp Hw].
    split_and!; [done | | done].
    by rewrite hex_length, length_vec_to_list.
  - by intros err ->.
  - unfold writeTemporaryKubeconfig. destruct rand as [r|err]; [|done].
    destruct (WriteFile _ yaml 384 w) as [[e|] w']; [done|]. by intros [].
  - unfold writeTemporaryKubeconfig.
    rewrite (bool_decide_true ("" = "" ∨ _)) by (by left).
    by rewrite (bool_decide_true ("." = "" ∨ _)) by (by right).
Qed.

(** X12.  Two credentials persisted for the same cluster name in the same
    directory get the same path exactly when the random source gave the
    same four bytes: distinct suffixes never collide. *)
Theorem writeTemporaryKubeconfig_distinct
    (r1 r2 : vec ascii 4) (yaml1 yaml2 wd cluster : string) (w1 w2 : world) :
  noSlash cluster = true →
  (persist (inl r1) yaml1 wd cluster w1).1.1.2 = None →
  (persist (inl r2) yaml2 wd cluster w2).1.1.2 = None →
  (persist (inl r1) yaml1 wd cluster w1).1.1.1 = (persist (inl r2) yaml2 wd cluster w2).1.1.1
  ↔ r1 = r2.
Proof.
  intros Hc Hok1 Hok2.
  destruct (writeTemporaryKubeconfig_ok r1 yaml1 wd cluster w1 Hc Hok1) as [-> _].
  destruct (writeTemporaryKubeconfig_ok r2 yaml2 wd cluster w2 Hc Hok2) as [-> _].
  split; [|by intros ->].
  intros H. do 4 apply append_inv_head in H.
  by apply vec_to_list_inj2, hex_inj.
Qed.

End PersistenceFacts.

(** A credential persisted on the small file system. *)
Definition persistOnDisk (r : vec ascii 4) (tmp yaml wd cluster : string) (w : simpleFS)
  : (string * option error) * simpleFS * list string :=
  writeTemporaryKubeconfig (inl r) tmp simpleFS simple_WriteFile simple_Error_text
    yaml wd cluster w.

(** X13.  Persist, then clean up: on the small file system, with nothing
    locked and no file yet at the generated path, writing a credential
    and cleaning up the returned path leaves the files as they were, and
    neither call returns an error. *)
Theorem kubeconfig_lifecycle
    (r : vec ascii 4) (tmp yaml wd cluster : string) (w : simpleFS) :
  noSlash cluster = true →
  sfs_locked w = ∅ →
  sfs_files w !! (persistOnDisk r tmp yaml wd cluster w).1.1.1 = None →
  (persistOnDisk r tmp yaml wd cluster w).1.1.2 = None ∧
  sfs_files (persistOnDisk r tmp yaml wd cluster w).1.2
    !! (persistOnDisk r tmp yaml wd cluster w).1.1.1 = Some yaml ∧
  (cleanupKubeconfig simple_Error_text simpleFS simple_Remove
     (persistOnDisk r tmp yaml wd cluster w).1.1.1
     (persistOnDisk r tmp yaml wd cluster w).1.2).1
    = (None, w).
Proof.
  intros Hc Hlocked. unfold persistOnDisk.
  set (written := writeTemporaryKubeconfig _ _ _ _ _ _ _ _ _). intros Hfresh.
  assert (written.1.1.2 = None) as Hok.
  { subst written. unfold writeTemporaryKubeconfig, simple_WriteFile.
    rewrite Hlocked. by rewrite bool_decide_false by set_solver. }
  destruct (writeTemporaryKubeconfig_ok tmp simpleFS simple_WriteFile simple_Error_text
              r yaml wd cluster w Hc Hok) as [Hpath Hwrite].
  fold written in Hpath, Hwrite.
  unfold simple_WriteFile in Hwrite. rewrite Hlocked in Hwrite.
  rewrite bool_decide_false in Hwrite by set_solver.
  injection Hwrite as Hw1.
  split; [done|]. rewrite <- Hw1. cbn [sfs_files]. split; [by rewrite lookup_insert_eq|].
  unfold cleanupKubeconfig. rewrite bool_decide_false.
  2:{ rewrite Hpath. destruct (joinPrefix _); by rewrite ?append_nil_l, ?append_cons. }
  unfold simple_Remove. cbn [sfs_files sfs_locked]. rewrite lookup_insert_eq.
  rewrite bool_decide_false by set_solver. cbn.
  rewrite delete_insert_id by done. by destruct w; simplify_eq/=.
Qed.

(** ** Subprocess executor, continued *)

(** [s] without the prefix [p], when it begins with it. *)
Fixpoint stripPrefix (p s : string) : option string :=
  match p, s with
  | EmptyString, _ => Some s
  | String a p', String b s' => if bool_decide (a = b) then stripPrefix p' s' else None
  | String _ _, EmptyString => None
  end.

(** The value a child started by [os/exec] receives for [key] from the
    [Env] slice of its command: of several entries for one key, the
    package uses the last one in the slice. *)
Definition envValue (env : list string) (key : string) : option string :=
  foldl (λ found kv,
           match stripPrefix (key +:+ "=") kv with
           | Some value => Some value
           | None => found
           end) None env.

Lemma stripPrefix_app (p s : string) : stripPrefix p (p +:+ s) = Some s.
Proof.
  induction p as [|a p IH]; [by rewrite append_nil_l; destruct s|].
  rewrite append_cons. cbn [stripPrefix]. by rewrite bool_decide_true.
Qed.

Lemma envValue_last (env : list string) (key value : string) :
  envValue (env ++ [key +:+ "=" +:+ value]) key = Some value.
Proof.
  unfold envValue. rewrite foldl_app. cbn [foldl].
  by rewrite <- append_assoc, stripPrefix_app.
Qed.

Section SubprocessFacts.

Variable range : ∀ V : Type, gmap string V → list (string * V).
Variable CombinedOutput : Cmd → string * option error.
Variable Environ : list string.
Variable readEnvironmentVariables : gmap string iface → string → list string.
Variable getKubeconfig : ReleaseSet → option string * option error.

Local Abbreviation run := (runCommand CombinedOutput Environ readEnvironmentVariables).

(** What [runCommand] makes of the answer of the child. *)
Definition resultOf (answer : string * option error) : Result * option error :=
  (mkResult answer.1 (exitStatus answer.2) answer.2, answer.2).

(** X14.  The command [runCommand] hands to [os/exec].  Its path is the
    configured binary, or "helmfile" when none is configured; its
    arguments are exactly the given ones; its [Dir] is the working
    directory of the options.  Its [Env] slice is the entries of the
    parent environment, then the entries read from the configured
    variables, then, when a credential path is set, the one entry
    KUBECONFIG=<path>, and no such entry otherwise; being last in the
    slice, that entry is the one the child receives for KUBECONFIG,
    whatever the parent environment and the configured variables say.
    Apply, diff, template, destroy and build each run one such command,
    with their subcommand first and [--no-color] second. *)
Theorem subprocess_command (opts : BaseOptions) (args : list string) :
  (∃ cmd,
     run opts args = resultOf (CombinedOutput cmd) ∧
     cmd_Path cmd =
       (if decide (HelmfileBinary opts = "") then "helmfile" else HelmfileBinary opts) ∧
     cmd_Args cmd = args ∧
     cmd_Dir cmd = WorkingDirectory opts ∧
     cmd_Env cmd =
       Environ ++ readEnvironmentVariables (EnvironmentVariables opts) "KUBECONFIG"
       ++ (if decide (Kubeconfig opts = "") then []
           else ["KUBECONFIG=" +:+ Kubeconfig opts]) ∧
     (Kubeconfig opts ≠ "" →
        envValue (cmd_Env cmd) "KUBECONFIG" = Some (Kubeconfig opts))) ∧
  (∀ o, ∃ rest,
     BinaryExecutor_Apply range CombinedOutput Environ readEnvironmentVariables o
     = run (apply_BaseOptions o) ("apply" :: "--no-color" :: rest)) ∧
  (∀ o, ∃ rest,
     BinaryExecutor_Diff range CombinedOutput Environ readEnvironmentVariables o
     = run (diff_BaseOptions o) ("diff" :: "--no-color" :: rest)) ∧
  (∀ o, ∃ rest,
     BinaryExecutor_Template range CombinedOutput Environ readEnvironmentVariables o
     = run (template_BaseOptions o) ("template" :: "--no-color" :: rest)) ∧
  (∀ o, ∃ rest,
     BinaryExecutor_Destroy range CombinedOutput Environ readEnvironmentVariables o
     = run (destroy_BaseOptions o) ("destroy" :: "--no-color" :: rest)) ∧
  (∀ o, ∃ rest,
     BinaryExecutor_Build range CombinedOutput Environ readEnvironmentVariables o
     = run (build_BaseOptions o) ("build" :: "--no-color" :: rest)).
Proof.
  split_and!.
  - unfold runCommand.
    match goal with |- context [CombinedOutput ?c] => exists c end.
    cbn [cmd_Path cmd_Args cmd_Dir cmd_Env]. split_and!.
    + unfold resultOf.
      by destruct (CombinedOutput _) as [output [[code|msg code|op path b|msg]|]].
    + by destruct (decide (HelmfileBinary opts = "")) as [->|Hne];
        [rewrite bool_decide_true | rewrite bool_decide_false].
    + done.
    + done.
    + destruct (decide (Kubeconfig opts = "")) as [Hk|Hk].
      * by rewrite bool_decide_true, app_nil_r.
      * by rewrite bool_decide_false, app_assoc.
    + intros Hk. rewrite bool_decide_false by done.
      change ("KUBECONFIG=" +:+ Kubeconfig opts)
        with ("KUBECONFIG" +:+ "=" +:+ Kubeconfig opts).
      apply envValue_last.
  - intros o. by eexists.
  - intros o. by eexists.
  - intros o. by eexists.
  - intros o. by eexists.
  - intros o. by eexists.
Qed.

(** X15.  The commands built from a release set.  A diff always asks for
    the detailed exit code, suppresses secrets and shows three lines of
    context; an apply always suppresses secrets and skips the diff on
    install; a template always includes the CRDs and never names an
    output directory; the concurrency flag is passed only when the limit
    is positive.  The limit on the diff output has no part in the
    command. *)
Theorem release_set_commands (fs : ReleaseSet) (tmpFile : string) (maxLen : Z) :
  let opts := buildBaseOptions getKubeconfig fs tmpFile in
  let base := buildBaseArgs range opts in
  let concurrency :=
    if decide (0 < rs_Concurrency fs)%Z
    then ["--concurrency"; Itoa (rs_Concurrency fs)] else [] in
  BinaryExecutor_Diff range CombinedOutput Environ readEnvironmentVariables
    (buildDiffOptions getKubeconfig fs tmpFile maxLen)
  = run opts (["diff"] ++ base ++ concurrency
              ++ ["--detailed-exitcode"; "--suppress-secrets"; "--context"; "3"]
              ++ set_flags range (rs_ReleasesValues fs)) ∧
  BinaryExecutor_Apply range CombinedOutput Environ readEnvironmentVariables
    (buildApplyOptions getKubeconfig fs tmpFile)
  = run opts (["apply"] ++ base ++ concurrency
              ++ ["--suppress-secrets"; "--skip-diff-on-install"]
              ++ set_flags range (rs_ReleasesValues fs)) ∧
  BinaryExecutor_Template range CombinedOutput Environ readEnvironmentVariables
    (buildTemplateOptions getKubeconfig fs tmpFile)
  = run opts (["template"] ++ base ++ concurrency ++ ["--include-crds"]) ∧
  BinaryExecutor_Destroy range CombinedOutput Environ readEnvironmentVariables
    (buildDestroyOptions getKubeconfig fs tmpFile)
  = run opts (["destroy"] ++ base ++ concurrency).
Proof.
  intros opts base concurrency.
  assert (flag_if (bool_decide (0 < rs_Concurrency fs)%Z)
            ["--concurrency"; Itoa (rs_Concurrency fs)] = concurrency) as Hc.
  { subst concurrency. by case_bool_decide; [rewrite decide_True | rewrite decide_False]. }
  unfold BinaryExecutor_Diff, BinaryExecutor_Apply, BinaryExecutor_Template,
    BinaryExecutor_Destroy.
  cbn [buildDiffOptions buildApplyOptions buildTemplateOptions buildDestroyOptions
       diff_BaseOptions diff_Concurrency diff_DetailedExitcode diff_SuppressSecrets
       diff_Context diff_ReleasesValues apply_BaseOptions apply_Concurrency
       apply_SuppressSecrets apply_SkipDiffOnInstall apply_ReleasesValues
       template_BaseOptions template_Concurrency template_IncludeCRDs template_OutputDir
       template_OutputDirTemplate destroy_BaseOptions destroy_Concurrency].
  fold opts. fold base. rewrite !Hc.
  split_and!; reflexivity.
Qed.

End SubprocessFacts.

(** ** In-process executor, continued *)

Section InProcessFacts.

Variable range : ∀ V : Type, gmap string V → list (string * V).
Variable helmfileApp : configProvider → os.environ → (string * option error) * os.environ.
Variable Sprintf_v_map : gmap string iface → string.

(** The options with the fields replaced that the in-process executor
    does not hand on. *)
Definition withUnread (o : BaseOptions) (workingDirectory helmfileBinary : string)
    (enableGoTemplate : bool) : BaseOptions :=
  {| FileOrDir := FileOrDir o;
     WorkingDirectory := workingDirectory;
     Kubeconfig := Kubeconfig o;
     KubeContext := KubeContext o;
     Namespace := Namespace o;
     Environment := Environment o;
     Selector := Selector o;
     Selectors := Selectors o;
     ValuesFiles := ValuesFiles o;
     Values := Values o;
     EnvironmentVariables := EnvironmentVariables o;
     HelmBinary := HelmBinary o;
     HelmfileBinary := helmfileBinary;
     EnableGoTemplate := enableGoTemplate |}.

(** X16.  The in-process executor never hands the working directory, the
    path of the helmfile binary, the go-template flag, the per-release
    values or the limit on the diff output to the application: changing
    any of them changes neither the result nor the environment left. *)
Theorem in_process_unread_options
    (o : BaseOptions) (wd bin : string) (tmpl : bool) (e0 : os.environ) :
  (∀ c rv rv' sd ss,
     LibraryExecutor_Apply range helmfileApp Sprintf_v_map
       (mkApplyOptions (withUnread o wd bin tmpl) c rv' sd ss) e0
     = LibraryExecutor_Apply range helmfileApp Sprintf_v_map
         (mkApplyOptions o c rv sd ss) e0) ∧
  (∀ c rv rv' de ss ctx maxLen maxLen',
     LibraryExecutor_Diff range helmfileApp
       (mkDiffOptions (withUnread o wd bin tmpl) c rv' de ss ctx maxLen') e0
     = LibraryExecutor_Diff range helmfileApp
         (mkDiffOptions o c rv de ss ctx maxLen) e0) ∧
  (∀ c crds dir dirTemplate,
     LibraryExecutor_Template range helmfileApp
       (mkTemplateOptions (withUnread o wd bin tmpl) c crds dir dirTemplate) e0
     = LibraryExecutor_Template range helmfileApp
         (mkTemplateOptions o c crds dir dirTemplate) e0) ∧
  (∀ c,
     LibraryExecutor_Destroy range helmfileApp
       (mkDestroyOptions (withUnread o wd bin tmpl) c) e0
     = LibraryExecutor_Destroy range helmfileApp (mkDestroyOptions o c) e0).
Proof. split_and!; reflexivity. Qed.

End InProcessFacts.

(** ** Masking in the debug text *)

Lemma substring_length (n m : nat) (s : string) :
  n + m ≤ String.length s → String.length (String.substring n m s) = m.
Proof.
  revert n m. induction s as [|c s IH]; intros n m; simpl.
  - intros H. assert (n = 0 ∧ m = 0) as [-> ->] by lia. done.
  - intros H. destruct n as [|n], m as [|m]; simpl; try done.
    + rewrite IH by lia. done.
    + apply IH. lia.
    + apply IH. lia.
Qed.

Lemma substring_all (s : string) : String.substring 0 (String.length s) s = s.
Proof. induction s as [|c s IH]; [done|]. cbn. by rewrite IH. Qed.

Lemma substring_split (n m : nat) (s : string) :
  n + m = String.length s →
  String.substring 0 n s +:+ String.substring n m s = s.
Proof.
  revert n m. induction s as [|c s IH]; intros n m H; cbn in H.
  - by assert (n = 0 ∧ m = 0) as [-> ->] by lia.
  - destruct n as [|n].
    + cbn in H. subst m. cbn. by rewrite append_nil_l, substring_all.
    + cbn. rewrite append_cons, IH by lia. done.
Qed.

Lemma substring_prefix (k j : nat) (s : string) :
  k ≤ j → String.substring 0 k (String.substring 0 j s) = String.substring 0 k s.
Proof.
  revert k j. induction s as [|c s IH]; intros k j H.
  - by destruct j, k.
  - destruct k as [|k]; [by destruct j|].
    destruct j as [|j]; [lia|]. cbn. rewrite IH by lia. done.
Qed.

(** X17.  The mask of a sensitive value shows nothing of a value of at
    most four bytes (it is "***"), and of a longer value exactly its
    first four and its last four bytes around "***": the mask is eleven
    bytes long whatever the length of the value.  Of a value of five to
    eight bytes every byte is therefore shown: two such values of the
    same length with the same mask are equal.  The mask alone does not
    tell the length: "abcde" and "abcdbcde" have the same mask. *)
Theorem maskValue_shape (val : string) :
  (String.length val ≤ 4 → maskValue val = "***") ∧
  (4 < String.length val →
     maskValue val =
       String.substring 0 4 val +:+ "***"
         +:+ String.substring (String.length val - 4) 4 val ∧
     String.length (String.substring 0 4 val) = 4 ∧
     String.length (String.substring (String.length val - 4) 4 val) = 4 ∧
     String.length (maskValue val) = 11) ∧
  (maskValue val = "***" ↔ String.length val ≤ 4) ∧
  (4 < String.length val ≤ 8 →
     ∀ other, String.length other = String.length val →
              maskValue other = maskValue val → other = val) ∧
  maskValue "abcde" = maskValue "abcdbcde".
Proof.
  assert (4 < String.length val → String.length (maskValue val) = 11) as Hlong.
  { intros H. unfold maskValue. rewrite bool_decide_true by done.
    rewrite !append_length, !substring_length by lia. done. }
  split_and!.
  - intros H. unfold maskValue. by rewrite bool_decide_false by lia.
  - intros H. split_and!.
    + unfold maskValue. by rewrite bool_decide_true.
    + apply substring_length. lia.
    + apply substring_length. lia.
    + by apply Hlong.
  - split.
    + intros Heq. destruct (decide (String.length val ≤ 4)) as [|Hn]; [done|].
      assert (String.length (maskValue val) = 11) as Hl by (apply Hlong; lia).
      by rewrite Heq in Hl.
    + intros H. unfold maskValue. by rewrite bool_decide_false by lia.
  - intros H other Hlen Hmask.
    assert (∀ s, 4 < String.length s ≤ 8 →
              s = String.substring 0 (String.length s - 4) (String.substring 0 4 s)
                  +:+ String.substring (String.length s - 4) 4 s) as Hshown.
    { intros s Hs. rewrite substring_prefix by lia. symmetry.
      apply substring_split. lia. }
    unfold maskValue in Hmask. rewrite !bool_decide_true in Hmask by lia.
    apply append_inv_same_length in Hmask as [Hhead Htail];
      [|by rewrite !substring_length by lia].
    apply append_inv_head in Htail.
    etrans; [apply (Hshown other); lia|].
    etrans; [|symmetry; apply (Hshown val); lia].
    rewrite Hlen in Htail |- *. by rewrite Hhead, Htail.
  - reflexivity.
Qed.

(** ** Version of the binary *)

(** No byte of [s] is [c]. *)
Fixpoint noByte (c : ascii) (s : string) : bool :=
  match s with
  | EmptyString => true
  | String x rest => bool_decide (x ≠ c) && noByte c rest
  end.

Lemma splitOn_join (sep : ascii) (s : string) :
  splitOn sep s ≠ [] ∧
  Forall (λ part, noByte sep part = true) (splitOn sep s) ∧
  String.concat (String sep "") (splitOn sep s) = s.
Proof.
  induction s as [|c rest (Hne & Hall & Hjoin)]; [by repeat constructor|].
  cbn [splitOn]. case_bool_decide as Hc.
  - subst c. split_and!; [done|by constructor|].
    cbn [String.concat]. destruct (splitOn sep rest) as [|part parts]; [done|].
    by rewrite Hjoin, append_nil_l, append_cons, append_nil_l.
  - destruct (splitOn sep rest) as [|part parts]; [done|].
    apply Forall_cons in Hall as [Hpart Hparts].
    split_and!; [done| |].
    + constructor; [|done]. cbn [noByte]. by rewrite bool_decide_true, Hpart.
    + cbn [String.concat] in *. destruct parts as [|part' parts].
      * by rewrite Hjoin.
      * by rewrite append_cons, Hjoin.
Qed.

Lemma noByte_TrimPrefix_v (c : ascii) (s : string) :
  noByte c s = true → noByte c (TrimPrefix_v s) = true.
Proof.
  destruct s as [|x rest]; [done|]. cbn [noByte]. intros [Hx Hrest]%andb_prop.
  unfold TrimPrefix_v.
  destruct x as [[] [] [] [] [] [] [] []]; cbn [noByte]; try by rewrite Hx, Hrest.
  done.
Qed.

Section VersionFacts.

Variable CombinedOutput : Cmd → string * option error.
Variable Error_text : error → string.
Variable TrimSpace : string → string.

Local Abbreviation Version := (BinaryExecutor_Version CombinedOutput Error_text TrimSpace).
Local Abbreviation answer := (CombinedOutput (mkCmd "helmfile" ["version"] "" [])).

(** X18.  The version of the binary.  The command run is always
    "helmfile version", whatever binary is configured.  When it fails,
    the version is empty and the error wraps the failure.  When it
    succeeds, the trimmed output is cut at its spaces into words, of which
    there is always at least one, and the version is the last word
    without one leading "v": it never contains a space. *)
Theorem BinaryExecutor_Version_last_word :
  (∀ e, answer.2 = Some e →
     Version = ("", Some (Errorf ("getting helmfile version: " +:+ Error_text e)))) ∧
  (answer.2 = None →
     ∃ words,
       words ≠ [] ∧
       String.concat " " words = TrimSpace answer.1 ∧
       Forall (λ word, noByte " " word = true) words ∧
       Version = (TrimPrefix_v (List.last words ""), None) ∧
       noByte " " Version.1 = true).
Proof.
  unfold BinaryExecutor_Version. destruct answer as [output [e|]]; cbn [fst snd].
  - split; [|done]. by intros ? [= ->].
  - split; [done|]. intros _.
    destruct (splitOn_join " " (TrimSpace output)) as (Hne & Hall & Hjoin).
    exists (splitOn " " (TrimSpace output)).
    assert (0 < length (splitOn " " (TrimSpace output))) as Hlen.
    { destruct (splitOn " " (TrimSpace output)); [done|cbn; lia]. }
    rewrite bool_decide_true by done. split_and!; try done.
    cbn [fst]. apply noByte_TrimPrefix_v.
    revert Hne Hall. generalize (splitOn " " (TrimSpace output)). clear.
    intros l. induction l as [|w [|w' l] IH]; [done| |].
    + intros _ [Hw _]%Forall_cons. done.
    + intros _ [_ Hl]%Forall_cons. by apply IH.
Qed.

End VersionFacts.

(** ** Closed instances of the further properties *)

(** A disk on which the working directory of [stackA] cannot be made. *)
Definition lockedDisk : simpleFS := mkSimpleFS ∅ {[ "/work/stack" ]}.

(** The credential path of a spec is its configured one. *)
Definition configuredKubeconfig (fs : ReleaseSet) : option string * option error :=
  (Some (rs_Kubeconfig fs), None).

Definition suffixA : vec ascii 4 := [# "a"; "b"; "c"; "d"]%char.
Definition suffixB : vec ascii 4 := [# "a"; "b"; "c"; "e"]%char.

(** X5 at a spec whose working directory cannot be made. *)
Lemma prepareHelmfileFile_failure_leaves_spec_witness :
  (prepareOnDisk stackA lockedDisk).1.1.2 ≠ None ∧
  (prepareOnDisk stackA lockedDisk).1.2 = stackA ∧
  (prepareOnDisk stackA lockedDisk).1.1.1 = "".
Proof.
  assert ((prepareOnDisk stackA lockedDisk).1.1.2 ≠ None) as H by (by vm_compute).
  split; [exact H|].
  exact (prepareHelmfileFile_failure_leaves_spec firstByteSum simpleFS simple_MkdirAll
           simple_WriteFile (inl "/work") simple_Error_text id stackA lockedDisk H).
Defined.

(** X6 at a concrete spec, materialized twice. *)
Lemma prepareHelmfileFile_again_witness :
  (prepareOnDisk stackA emptyDisk).1.1.2 = None ∧
  (prepareOnDisk (prepareOnDisk stackA emptyDisk).1.2 emptyDisk).1.1.2 = None ∧
  (prepareOnDisk (prepareOnDisk stackA emptyDisk).1.2 emptyDisk).1.2
    = (prepareOnDisk stackA emptyDisk).1.2.
Proof.
  assert ((prepareOnDisk stackA emptyDisk).1.1.2 = None) as H1 by (vm_compute; reflexivity).
  assert ((prepareOnDisk (prepareOnDisk stackA emptyDisk).1.2 emptyDisk).1.1.2 = None)
    as H2 by (vm_compute; reflexivity).
  split; [exact H1|]. split; [exact H2|].
  exact (proj2 (prepareHelmfileFile_again firstByteSum simpleFS simple_MkdirAll
                  simple_WriteFile (inl "/work") simple_Error_text id
                  stackA emptyDisk emptyDisk H1 H2)).
Defined.

(** X8 at a concrete spec. *)
Lemma materialized_command_line_witness :
  (prepareOnDisk stackA emptyDisk).1.1.2 = None ∧
  ∃ front,
    buildBaseArgs (λ V, map_to_list)
      (buildBaseOptions configuredKubeconfig (prepareOnDisk stackA emptyDisk).1.2
         (prepareOnDisk stackA emptyDisk).1.1.1)
    = ["--no-color"; "--file"; (prepareOnDisk stackA emptyDisk).1.1.1] ++ front
      ++ flat_map (λ p, ["--state-values-file"; p])
           ((valuesPath firstByteSum (inl "/work") (rs_WorkingDirectory stackA)
               <$> elems (rs_Values stackA))
            ++ (Sprintf_v <$> elems (rs_ValuesFiles stackA))).
Proof.
  assert ((prepareOnDisk stackA emptyDisk).1.1.2 = None) as H by (vm_compute; reflexivity).
  split; [exact H|].
  exact (materialized_command_line firstByteSum simpleFS simple_MkdirAll
           simple_WriteFile (inl "/work") simple_Error_text id configuredKubeconfig
           (λ V, map_to_list) stackA emptyDisk H).
Defined.

(** X9 at a concrete spec. *)
Lemma materialized_provider_witness :
  (prepareOnDisk stackA emptyDisk).1.1.2 = None ∧
  convertToStringSlice
    (values (newBaseConfigProvider
               (buildBaseOptions configuredKubeconfig (prepareOnDisk stackA emptyDisk).1.2
                  (prepareOnDisk stackA emptyDisk).1.1.1))) = [].
Proof.
  assert ((prepareOnDisk stackA emptyDisk).1.1.2 = None) as H by (vm_compute; reflexivity).
  split; [exact H|].
  exact (proj1 (proj2
    (materialized_provider firstByteSum simpleFS simple_MkdirAll
       simple_WriteFile (inl "/work") simple_Error_text id configuredKubeconfig
       stackA emptyDisk H))).
Defined.

(** X11 at a concrete cluster name and suffix. *)
Lemma writeTemporaryKubeconfig_path_witness :
  noSlash "prod" = true ∧
  (persistOnDisk suffixA "/tmp" "apiVersion: v1" "/work" "prod" emptyDisk).1.1.2 = None ∧
  (persistOnDisk suffixA "/tmp" "apiVersion: v1" "/work" "prod" emptyDisk).1.1.1
    = "/work/.terraform-helmfile-kubeconfig-prod-61626364".
Proof.
  assert ((persistOnDisk suffixA "/tmp" "apiVersion: v1" "/work" "prod" emptyDisk).1.1.2
          = None) as HA by (vm_compute; reflexivity).
  split; [reflexivity|]. split; [exact HA|].
  exact (proj1 (proj1
    (writeTemporaryKubeconfig_path "/tmp" simpleFS simple_WriteFile simple_Error_text
       (inl suffixA) "apiVersion: v1" "/work" "prod" emptyDisk eq_refl)
    suffixA eq_refl HA)).
Defined.

(** X12 at two concrete suffixes. *)
Lemma writeTemporaryKubeconfig_distinct_witness :
  noSlash "prod" = true ∧
  (persistOnDisk suffixA "/tmp" "apiVersion: v1" "/work" "prod" emptyDisk).1.1.2 = None ∧
  (persistOnDisk suffixB "/tmp" "apiVersion: v1" "/work" "prod" emptyDisk).1.1.2 = None ∧
  ((persistOnDisk suffixA "/tmp" "apiVersion: v1" "/work" "prod" emptyDisk).1.1.1
   = (persistOnDisk suffixB "/tmp" "apiVersion: v1" "/work" "prod" emptyDisk).1.1.1
   ↔ suffixA = suffixB).
Proof.
  assert ((persistOnDisk suffixA "/tmp" "apiVersion: v1" "/work" "prod" emptyDisk).1.1.2
          = None) as HA by (vm_compute; reflexivity).
  assert ((persistOnDisk suffixB "/tmp" "apiVersion: v1" "/work" "prod" emptyDisk).1.1.2
          = None) as HB by (vm_compute; reflexivity).
  split; [reflexivity|]. split; [exact HA|]. split; [exact HB|].
  exact (writeTemporaryKubeconfig_distinct "/tmp" simpleFS simple_WriteFile
           simple_Error_text suffixA suffixB "apiVersion: v1" "apiVersion: v1" "/work"
           "prod" emptyDisk emptyDisk eq_refl HA HB).
Defined.

(** X13 on the empty disk. *)
Lemma kubeconfig_lifecycle_witness :
  noSlash "prod" = true ∧
  sfs_locked emptyDisk = ∅ ∧
  sfs_files emptyDisk
    !! (persistOnDisk suffixA "/tmp" "apiVersion: v1" "/work" "prod" emptyDisk).1.1.1 = None ∧
  (cleanupKubeconfig simple_Error_text simpleFS simple_Remove
     (persistOnDisk suffixA "/tmp" "apiVersion: v1" "/work" "prod" emptyDisk).1.1.1
     (persistOnDisk suffixA "/tmp" "apiVersion: v1" "/work" "prod" emptyDisk).1.2).1
    = (None, emptyDisk).
Proof.
  assert (sfs_files emptyDisk
            !! (persistOnDisk suffixA "/tmp" "apiVersion: v1" "/work" "prod" emptyDisk).1.1.1
          = None) as Hfresh by reflexivity.
  split; [reflexivity|]. split; [reflexivity|]. split; [exact Hfresh|].
  exact (proj2 (proj2
    (kubeconfig_lifecycle suffixA "/tmp" "apiVersion: v1" "/work" "prod" emptyDisk
       eq_refl eq_refl Hfresh))).
Defined.
